(** * CAclouds3D: a cellular automaton for volumetric clouds

    Shallow embedding of [src/Clouds/CAclouds.py] (class [CAclouds3D]) and
    the properties of its constructor, of [init_elliptic_probabilities], of
    the two phases of [step] and of [get_cloud_positions].

    Tensors of rank three are nested lists in row-major order (the order of
    a contiguous torch tensor); [uint8] and [int16] cells are integers of
    [Z]; the bitwise operators of the source are [Z.lor], [Z.land] and the
    eight-bit complement [inv8]. *)

From Stdlib Require Import List ZArith Lia Bool QArith.
Import ListNotations.
Local Open Scope Z_scope.

Set Implicit Arguments.

(* ================================================================== *)
(** ** Rank-three tensors *)

Module Tensor.

Definition tensor (A : Type) : Type := list (list (list A)).

(** Element-wise combination of two lists ([zip] then [map]). *)
Fixpoint map2 {A B C : Type} (f : A -> B -> C) (l1 : list A) (l2 : list B)
  : list C :=
  match l1, l2 with
  | a :: l1', b :: l2' => f a b :: map2 f l1' l2'
  | _, _ => []
  end.

(** [imap f l] maps with the position of each element, counting from [n]. *)
Fixpoint imap_from {A B : Type} (n : nat) (f : nat -> A -> B) (l : list A)
  : list B :=
  match l with
  | [] => []
  | a :: l' => f n a :: imap_from (S n) f l'
  end.

Definition imap {A B : Type} (f : nat -> A -> B) (l : list A) : list B :=
  imap_from 0 f l.

Definition map3 {A B : Type} (f : A -> B) (t : tensor A) : tensor B :=
  map (map (map f)) t.

Definition zip3 {A B C : Type} (f : A -> B -> C)
           (a : tensor A) (b : tensor B) : tensor C :=
  map2 (map2 (map2 f)) a b.

(** [t[i, j, k]], with [d] outside the tensor. *)
Definition get3 {A : Type} (d : A) (t : tensor A) (i j k : nat) : A :=
  nth k (nth j (nth i t []) []) d.

(** The shape [(w, d, h)] of a rectangular tensor. *)
Definition shaped {A : Type} (w d h : nat) (t : tensor A) : Prop :=
  length t = w /\
  Forall (fun p => length p = d /\ Forall (fun r => length r = h) p) t.

(** Bound of a Python slice on a sequence of length [n]: a negative bound
    counts from the end, and the result is clipped into [0, n]. *)
Definition slice_bound (n : nat) (i : Z) : nat :=
  Z.to_nat (Z.min (Z.of_nat n)
                  (Z.max 0 (if i <? 0 then i + Z.of_nat n else i))).

(** [l[i:]] and [l[:i]]. *)
Definition from {A : Type} (i : Z) (l : list A) : list A :=
  skipn (slice_bound (length l) i) l.

Definition upto {A : Type} (i : Z) (l : list A) : list A :=
  firstn (slice_bound (length l) i) l.

(** [t[i:, :, :]], [t[:, i:, :]], [t[:, :, i:]] and the [:i] forms. *)
Definition from0 {A : Type} (i : Z) (t : tensor A) : tensor A := from i t.
Definition upto0 {A : Type} (i : Z) (t : tensor A) : tensor A := upto i t.
Definition from1 {A : Type} (i : Z) (t : tensor A) : tensor A :=
  map (from i) t.
Definition upto1 {A : Type} (i : Z) (t : tensor A) : tensor A :=
  map (upto i) t.
Definition from2 {A : Type} (i : Z) (t : tensor A) : tensor A :=
  map (map (from i)) t.
Definition upto2 {A : Type} (i : Z) (t : tensor A) : tensor A :=
  map (map (upto i)) t.

(** [torch.cat((a, b), dim)] for [dim] 0, 1 and 2. *)
Definition cat0 {A : Type} (a b : tensor A) : tensor A := a ++ b.
Definition cat1 {A : Type} (a b : tensor A) : tensor A :=
  map2 (@app (list A)) a b.
Definition cat2 {A : Type} (a b : tensor A) : tensor A :=
  map2 (map2 (@app A)) a b.

(** [torch.arange(a, b)]. *)
Definition arange (a b : Z) : list Z :=
  map (fun n => a + Z.of_nat n) (seq 0 (Z.to_nat (b - a))).

(** [torch.meshgrid(xs, ys, zs)] (matrix indexing). *)
Definition meshgrid (xs ys zs : list Z) : tensor Z * tensor Z * tensor Z :=
  (map (fun x => map (fun _ => map (fun _ => x) zs) ys) xs,
   map (fun _ => map (fun y => map (fun _ => y) zs) ys) xs,
   map (fun _ => map (fun _ => zs) ys) xs).

(** [torch.zeros((w, d, h))] and [torch.zeros_like(t)]. *)
Definition zeros (w d h : Z) : tensor Z :=
  repeat (repeat (repeat 0 (Z.to_nat h)) (Z.to_nat d)) (Z.to_nat w).

Definition zeros_like {A : Type} (t : tensor A) : tensor Z :=
  map3 (fun _ => 0) t.

(** [t.random_(lo, hi)]: every cell of [t] is overwritten in place with
    the draw of its position; the shape of [t] is kept. *)
Definition random_ {A : Type} (g : Z -> Z -> Z -> Z) (t : tensor A)
  : tensor Z :=
  imap (fun i p =>
          imap (fun j r =>
                  imap (fun k _ => g (Z.of_nat i) (Z.of_nat j) (Z.of_nat k))
                       r) p) t.

(** [t.reshape(1, -1).squeeze()]: the cells in row-major order. *)
Definition flatten {A : Type} (t : tensor A) : list A := concat (concat t).

(** [v[mask]] for a vector and a boolean vector of the same length. *)
Fixpoint select {A : Type} (v : list A) (mask : list bool) : list A :=
  match v, mask with
  | a :: v', m :: mask' =>
      if m then a :: select v' mask' else select v' mask'
  | _, _ => []
  end.

(** [v.view(3, -1)] for a vector whose length is a multiple of three. *)
Definition view3 {A : Type} (v : list A) : list (list A) :=
  let n := (length v / 3)%nat in
  [firstn n v; firstn n (skipn n v); firstn n (skipn (2 * n) v)].

(** [m.transpose(0, 1)] for a matrix given by its rows. *)
Definition transpose {A : Type} (d : A) (m : list (list A))
  : list (list A) :=
  match m with
  | [] => []
  | r :: _ => map (fun j => map (fun row => nth j row d) m)
                  (seq 0 (length r))
  end.

(** [t[mask] = v]. *)
Definition masked_fill {A : Type} (t : tensor A) (mask : tensor bool)
           (v : A) : tensor A :=
  zip3 (fun x (m : bool) => if m then v else x) t mask.

End Tensor.

Import Tensor.

(* ================================================================== *)
(** ** Cells *)

(** The cell with (integer) coordinates [(i, j, k)]. *)
Definition cell (t : tensor Z) (i j k : Z) : Z :=
  get3 0 t (Z.to_nat i) (Z.to_nat j) (Z.to_nat k).

(** [~a] on a [uint8] cell. *)
Definition inv8 (a : Z) : Z := Z.land (Z.lnot a) 255.

Definition tor (a b : tensor Z) : tensor Z := zip3 Z.lor a b.
Definition tand (a b : tensor Z) : tensor Z := zip3 Z.land a b.
Definition tinv (a : tensor Z) : tensor Z := map3 inv8 a.

(** [a < b] and [a > b] on integer tensors; the boolean cells are combined
    with [uint8] cells as 0 and 1. *)
Definition tlt (a b : tensor Z) : tensor Z :=
  zip3 (fun x y => Z.b2z (x <? y)) a b.
Definition tgt (a b : tensor Z) : tensor Z :=
  zip3 (fun x y => Z.b2z (x >? y)) a b.

(** A probability field is a tensor, or a number compared with every cell
    (what [self.P_hum] is after [init_elliptic_probabilities]). *)
Inductive prob : Type :=
| PTensor (t : tensor Z)
| PScalar (v : Z).

Definition tlt_prob (a : tensor Z) (p : prob) : tensor Z :=
  match p with
  | PTensor t => tlt a t
  | PScalar v => map3 (fun x => Z.b2z (x <? v)) a
  end.

(** The value a probability field has at a cell. *)
Definition prob_at (p : prob) (i j k : Z) : Z :=
  match p with
  | PTensor t => cell t i j k
  | PScalar v => v
  end.

(** A probability field that is zero at every cell. *)
Definition prob_zero (p : prob) : Prop :=
  match p with
  | PTensor t => Forall (Forall (Forall (fun c => c = 0))) t
  | PScalar v => v = 0
  end.

Definition bit (a : Z) : bool := a =? 1.

Definition binary (t : tensor Z) : Prop :=
  Forall (Forall (Forall (fun c => c = 0 \/ c = 1))) t.

(** Number of cells of a tensor that hold 1. *)
Definition count_set (t : tensor Z) : nat :=
  length (filter bit (flatten t)).

(* ================================================================== *)
(** ** The engine *)

Record CAclouds3D : Type := mkCA {
  width : Z;
  depth : Z;
  height : Z;
  x : tensor Z;
  y : tensor Z;
  z : tensor Z;
  hum : tensor Z;
  act : tensor Z;
  cld : tensor Z;
  f_act : tensor Z;
  hum_temp : tensor Z;
  rnd_hum : tensor Z;
  rnd_act : tensor Z;
  rnd_ext : tensor Z;
  P_hum : prob;
  P_act : tensor Z;
  P_ext : tensor Z;
  act2 : option (tensor Z)
}.

Inductive error : Type :=
| InvalidDimension
| BackendError.

Inductive result (A : Type) : Type :=
| Ok (a : A)
| Err (e : error).

Arguments Err {A} e.

(** [__init__].  The source checks nothing itself; [torch.arange] and
    [torch.zeros] raise on a negative size and accept a zero one. *)
Definition init (width depth height : Z) : result CAclouds3D :=
  if (width <? 0) || (depth <? 0) || (height <? 0) then Err BackendError
  else
    let '(gx, gy, gz) :=
      meshgrid (arange 0 width) (arange 0 depth) (arange 0 height) in
    let hum0 := zeros width depth height in
    let act0 := zeros width depth height in
    let cld0 := zeros width depth height in
    Ok {| width := width; depth := depth; height := height;
          x := gx; y := gy; z := gz;
          hum := hum0; act := act0; cld := cld0;
          f_act := zeros_like act0;
          hum_temp := zeros_like hum0;
          rnd_hum := zeros_like hum0;
          rnd_act := zeros_like act0;
          rnd_ext := zeros_like cld0;
          P_hum := PTensor (zeros_like hum0);
          P_act := zeros_like act0;
          P_ext := zeros_like cld0;
          act2 := None |}.

(** Updates of single attributes. *)
Definition set_hum_temp (v : tensor Z) (s : CAclouds3D) : CAclouds3D :=
  mkCA (width s) (depth s) (height s) (x s) (y s) (z s) (hum s) (act s)
       (cld s) (f_act s) v (rnd_hum s) (rnd_act s) (rnd_ext s)
       (P_hum s) (P_act s) (P_ext s) (act2 s).

Definition set_hum (v : tensor Z) (s : CAclouds3D) : CAclouds3D :=
  mkCA (width s) (depth s) (height s) (x s) (y s) (z s) v (act s)
       (cld s) (f_act s) (hum_temp s) (rnd_hum s) (rnd_act s) (rnd_ext s)
       (P_hum s) (P_act s) (P_ext s) (act2 s).

Definition set_act (v : tensor Z) (s : CAclouds3D) : CAclouds3D :=
  mkCA (width s) (depth s) (height s) (x s) (y s) (z s) (hum s) v
       (cld s) (f_act s) (hum_temp s) (rnd_hum s) (rnd_act s) (rnd_ext s)
       (P_hum s) (P_act s) (P_ext s) (act2 s).

Definition set_cld (v : tensor Z) (s : CAclouds3D) : CAclouds3D :=
  mkCA (width s) (depth s) (height s) (x s) (y s) (z s) (hum s) (act s)
       v (f_act s) (hum_temp s) (rnd_hum s) (rnd_act s) (rnd_ext s)
       (P_hum s) (P_act s) (P_ext s) (act2 s).

Definition set_f_act (v : tensor Z) (s : CAclouds3D) : CAclouds3D :=
  mkCA (width s) (depth s) (height s) (x s) (y s) (z s) (hum s) (act s)
       (cld s) v (hum_temp s) (rnd_hum s) (rnd_act s) (rnd_ext s)
       (P_hum s) (P_act s) (P_ext s) (act2 s).

Definition set_act2 (v : tensor Z) (s : CAclouds3D) : CAclouds3D :=
  mkCA (width s) (depth s) (height s) (x s) (y s) (z s) (hum s) (act s)
       (cld s) (f_act s) (hum_temp s) (rnd_hum s) (rnd_act s) (rnd_ext s)
       (P_hum s) (P_act s) (P_ext s) (Some v).

Definition set_rnd (rh ra re : tensor Z) (s : CAclouds3D) : CAclouds3D :=
  mkCA (width s) (depth s) (height s) (x s) (y s) (z s) (hum s) (act s)
       (cld s) (f_act s) (hum_temp s) rh ra re
       (P_hum s) (P_act s) (P_ext s) (act2 s).

Definition set_P (ph : prob) (pa pe : tensor Z) (s : CAclouds3D)
  : CAclouds3D :=
  mkCA (width s) (depth s) (height s) (x s) (y s) (z s) (hum s) (act s)
       (cld s) (f_act s) (hum_temp s) (rnd_hum s) (rnd_act s) (rnd_ext s)
       ph pa pe (act2 s).

(** The activation factor of [__cloud_growth__]: eleven rotations of
    [act], written with the slices and concatenations of the source. *)
Definition neighbours (a : tensor Z) : tensor Z :=
  tor (tor (tor (tor (tor (tor (tor (tor (tor (tor
    (cat0 (from0 (-2) a) (upto0 (-2) a))
    (cat0 (from0 (-1) a) (upto0 (-1) a)))
    (cat0 (from0 1 a) (upto0 1 a)))
    (cat0 (from0 2 a) (upto0 2 a)))
    (cat1 (from1 (-2) a) (upto1 (-2) a)))
    (cat1 (from1 (-1) a) (upto1 (-1) a)))
    (cat1 (from1 1 a) (upto1 1 a)))
    (cat2 (from2 (-2) a) (upto2 (-2) a)))
    (cat2 (from2 (-1) a) (upto2 (-1) a)))
    (cat2 (from2 1 a) (upto2 1 a)))
    (cat2 (from2 2 a) (upto2 2 a)).

(** [__cloud_growth__], statement by statement. *)
Definition cloud_growth (s : CAclouds3D) : CAclouds3D :=
  let s1 := set_hum_temp (tand (hum s) (tinv (act s))) s in
  let s2 := set_cld (tor (cld s1) (act s1)) s1 in
  let s3 := set_f_act (neighbours (act s2)) s2 in
  let s4 := set_act (tand (tand (tinv (act s3)) (hum s3)) (f_act s3)) s3 in
  let s5 := set_act2 (act s4) s4 in
  set_hum (hum_temp s5) s5.

(** The three draws of one call of [__cloud_FormationExtinction__]. *)
Record draws : Type := mkDraws {
  draw_hum : Z -> Z -> Z -> Z;
  draw_act : Z -> Z -> Z -> Z;
  draw_ext : Z -> Z -> Z -> Z
}.

(** [random_(0, 10001)] draws from 0 to 10000. *)
Definition in_range (g : Z -> Z -> Z -> Z) : Prop :=
  forall i j k, 0 <= g i j k <= 10000.

Definition draws_in_range (r : draws) : Prop :=
  in_range (draw_hum r) /\ in_range (draw_act r) /\ in_range (draw_ext r).

(** [__cloud_FormationExtinction__]. *)
Definition cloud_FormationExtinction (r : draws) (s : CAclouds3D)
  : CAclouds3D :=
  let s1 := set_rnd (random_ (draw_hum r) (rnd_hum s))
                    (random_ (draw_act r) (rnd_act s))
                    (random_ (draw_ext r) (rnd_ext s)) s in
  let s2 := set_hum (tor (hum s1) (tlt_prob (rnd_hum s1) (P_hum s1))) s1 in
  let s3 := set_act (tor (act s2) (tlt (rnd_act s2) (P_act s2))) s2 in
  set_cld (tand (cld s3) (tgt (rnd_ext s3) (P_ext s3))) s3.

Definition step (r : draws) (s : CAclouds3D) : CAclouds3D :=
  cloud_FormationExtinction r (cloud_growth s).

(** [simulate(n)]; [rng i] are the draws of iteration [i]. *)
Fixpoint simulate_from (i : nat) (rng : nat -> draws) (n : nat)
         (s : CAclouds3D) : CAclouds3D :=
  match n with
  | O => s
  | S n' =>
      simulate_from (S i) rng n'
                    (cloud_FormationExtinction (rng i) (cloud_growth s))
  end.

Definition simulate (rng : nat -> draws) (n : nat) (s : CAclouds3D)
  : CAclouds3D :=
  simulate_from 0 rng n s.

(** [get_cloud_positions]: one row [[x; y; z]] per cell whose [cld] is 1. *)
Definition get_cloud_positions (s : CAclouds3D) : list (list Z) :=
  let selection := map bit (flatten (cld s)) in
  let xs := select (flatten (x s)) selection in
  let ys := select (flatten (y s)) selection in
  let zs := select (flatten (z s)) selection in
  transpose 0 (view3 (xs ++ ys ++ zs)).

(* ================================================================== *)
(** ** Elliptic probability fields *)

(** The floating-point numbers of [init_elliptic_probabilities] (stretch
    factors, radius, overlap, distances) stay abstract: the development
    holds for every arithmetic with these operations. *)
Class FloatOps (F : Type) : Type := {
  f_zero : F;
  f_one : F;
  f_of_Z : Z -> F;
  f_add : F -> F -> F;
  f_sub : F -> F -> F;
  f_div : F -> F -> F;
  f_leb : F -> F -> bool;
  f_ltb : F -> F -> bool
}.

(** Exact rational arithmetic is one such arithmetic. *)
#[export] Instance Q_FloatOps : FloatOps Q := {|
  f_zero := 0%Q;
  f_one := 1%Q;
  f_of_Z := inject_Z;
  f_add := Qplus;
  f_sub := Qminus;
  f_div := Qdiv;
  f_leb := Qle_bool;
  f_ltb := fun a b => negb (Qle_bool b a)
|}.

Inductive axis : Type := AxX | AxY | AxZ.
Inductive field : Type := FHum | FAct | FExt.

(** The messages [init_elliptic_probabilities] prints; the numbers are the
    ones formatted into the message. *)
Inductive diagnostic : Type :=
| CenterSetTo0 (a : axis) (upper : Z)
| CenterSetToMax (a : axis) (upper value : Z)
| StretchIgnored (a : axis)
| ProbSetTo0 (f : field)
| ProbSetTo10000 (f : field).

(** Computations that print: a value and the messages printed so far. *)
Definition Log (A : Type) : Type := (A * list diagnostic)%type.

Definition ret {A : Type} (a : A) : Log A := (a, []).

Definition bind {A B : Type} (c : Log A) (k : A -> Log B) : Log B :=
  let '(a, out1) := c in
  let '(b, out2) := k a in
  (b, out1 ++ out2).

Definition print (d : diagnostic) : Log unit := (tt, [d]).

Notation "v <- c ;; k" := (bind c (fun v => k))
  (at level 61, c at next level, right associativity).
Notation "c ;;; k" := (bind c (fun _ => k))
  (at level 61, right associativity).

(** The three checks of the center, with the bounds the source compares
    against: [c_y] and [c_z] are compared with [self.width]. *)
Definition check_c_x (s : CAclouds3D) (c_x : Z) : Log Z :=
  if c_x <? 0 then
    print (CenterSetTo0 AxX (width s - 1)) ;;; ret 0
  else if c_x >=? width s then
    print (CenterSetToMax AxX (width s - 1) (width s - 1)) ;;;
    ret (width s - 1)
  else ret c_x.

Definition check_c_y (s : CAclouds3D) (c_y : Z) : Log Z :=
  if c_y <? 0 then
    print (CenterSetTo0 AxY (depth s - 1)) ;;; ret 0
  else if c_y >=? width s then
    print (CenterSetToMax AxY (depth s - 1) (depth s - 1)) ;;;
    ret (depth s - 1)
  else ret c_y.

Definition check_c_z (s : CAclouds3D) (c_z : Z) : Log Z :=
  if c_z <? 0 then
    print (CenterSetTo0 AxZ (height s - 1)) ;;; ret 0
  else if c_z >=? width s then
    print (CenterSetToMax AxZ (height s - 1) (height s - 1)) ;;;
    ret (height s - 1)
  else ret c_z.

(** The check of a probability [P_hum0], [P_act0] or [P_ext0]. *)
Definition check_P (f : field) (p : Z) : Log Z :=
  if p <? 0 then print (ProbSetTo0 f) ;;; ret 0
  else if p >? 10000 then print (ProbSetTo10000 f) ;;; ret 10000
  else ret p.

Section Elliptic.

Context {F : Type} {ops : FloatOps F}.

Definition check_overlap (overlap : F) : F :=
  if f_ltb overlap f_zero then f_zero else overlap.

Definition check_f (a : axis) (f : F) : Log F :=
  if f_leb f f_zero then print (StretchIgnored a) ;;; ret f_one
  else ret f.

(** [(self.x-c_x)**2/f_x + (self.y-c_y)**2/f_y + (self.z-c_z)**2/f_z]
    at one cell whose coordinates are [vx], [vy], [vz]. *)
Definition distance_at (c_x c_y c_z : Z) (f_x f_y f_z : F)
           (vx vy vz : Z) : F :=
  f_add (f_add (f_div (f_of_Z ((vx - c_x) ^ 2)) f_x)
               (f_div (f_of_Z ((vy - c_y) ^ 2)) f_y))
        (f_div (f_of_Z ((vz - c_z) ^ 2)) f_z).

(** The same on the coordinate grids, operator by operator. *)
Definition distance (s : CAclouds3D) (c_x c_y c_z : Z) (f_x f_y f_z : F)
  : tensor F :=
  zip3 f_add
    (zip3 f_add
       (map3 (fun v => f_div (f_of_Z ((v - c_x) ^ 2)) f_x) (x s))
       (map3 (fun v => f_div (f_of_Z ((v - c_y) ^ 2)) f_y) (y s)))
    (map3 (fun v => f_div (f_of_Z ((v - c_z) ^ 2)) f_z) (z s)).

Definition init_elliptic_probabilities
           (c_x c_y c_z : Z) (f_x f_y f_z : F)
           (P_hum0 P_act0 P_ext0 : Z) (radius overlap : F)
           (s : CAclouds3D) : Log CAclouds3D :=
  let overlap := check_overlap overlap in
  c_x <- check_c_x s c_x ;;
  c_y <- check_c_y s c_y ;;
  c_z <- check_c_z s c_z ;;
  f_x <- check_f AxX f_x ;;
  f_y <- check_f AxY f_y ;;
  f_z <- check_f AxZ f_z ;;
  P_hum0 <- check_P FHum P_hum0 ;;
  P_act0 <- check_P FAct P_act0 ;;
  P_ext0 <- check_P FExt P_ext0 ;;
  let dist := distance s c_x c_y c_z f_x f_y f_z in
  let sel_inner := map3 (fun v => f_leb v (f_add radius overlap)) dist in
  let sel_outer := map3 (fun v => f_ltb (f_sub radius overlap) v) dist in
  ret (set_P (PScalar P_hum0)
             (masked_fill (P_act s) sel_inner P_act0)
             (masked_fill (P_ext s) sel_outer P_ext0) s).

End Elliptic.

(** The values the checks leave, as closed expressions. *)
Definition clamp_P (p : Z) : Z := Z.max 0 (Z.min 10000 p).

(* ================================================================== *)
(** ** Reachable states *)

(** States built by the constructor and changed by
    [init_elliptic_probabilities] and [step] only. *)
Inductive reachable : CAclouds3D -> Prop :=
| reach_init : forall w d h s,
    init w d h = Ok s -> reachable s
| reach_elliptic :
    forall (F : Type) (ops : FloatOps F) c_x c_y c_z (f_x f_y f_z : F)
           ph pa pe radius overlap s,
      reachable s ->
      reachable (fst (init_elliptic_probabilities
                        c_x c_y c_z f_x f_y f_z ph pa pe radius overlap s))
| reach_step : forall r s,
    reachable s -> reachable (step r s).

(** Shapes of a state: every grid has the constructed shape and the
    coordinate grids hold the coordinates. *)
Definition nat_dims (s : CAclouds3D) : nat * nat * nat :=
  (Z.to_nat (width s), Z.to_nat (depth s), Z.to_nat (height s)).

Definition prob_shaped (w d h : nat) (p : prob) : Prop :=
  match p with
  | PTensor t => shaped w d h t
  | PScalar _ => True
  end.

Record wf (s : CAclouds3D) : Prop := mkWf {
  wf_x : x s = fst (fst (meshgrid (arange 0 (width s)) (arange 0 (depth s))
                                  (arange 0 (height s))));
  wf_y : y s = snd (fst (meshgrid (arange 0 (width s)) (arange 0 (depth s))
                                  (arange 0 (height s))));
  wf_z : z s = snd (meshgrid (arange 0 (width s)) (arange 0 (depth s))
                             (arange 0 (height s)));
  wf_hum : shaped (Z.to_nat (width s)) (Z.to_nat (depth s))
                  (Z.to_nat (height s)) (hum s);
  wf_act : shaped (Z.to_nat (width s)) (Z.to_nat (depth s))
                  (Z.to_nat (height s)) (act s);
  wf_cld : shaped (Z.to_nat (width s)) (Z.to_nat (depth s))
                  (Z.to_nat (height s)) (cld s);
  wf_rnd_hum : shaped (Z.to_nat (width s)) (Z.to_nat (depth s))
                      (Z.to_nat (height s)) (rnd_hum s);
  wf_rnd_act : shaped (Z.to_nat (width s)) (Z.to_nat (depth s))
                      (Z.to_nat (height s)) (rnd_act s);
  wf_rnd_ext : shaped (Z.to_nat (width s)) (Z.to_nat (depth s))
                      (Z.to_nat (height s)) (rnd_ext s);
  wf_P_hum : prob_shaped (Z.to_nat (width s)) (Z.to_nat (depth s))
                         (Z.to_nat (height s)) (P_hum s);
  wf_P_act : shaped (Z.to_nat (width s)) (Z.to_nat (depth s))
                    (Z.to_nat (height s)) (P_act s);
  wf_P_ext : shaped (Z.to_nat (width s)) (Z.to_nat (depth s))
                    (Z.to_nat (height s)) (P_ext s)
}.

(** The activation of the neighbourhood of [(i, j, k)]: the cells of [a]
    at the eleven offsets, every index modulo the length of its axis.
    [neighbour_bits] combines the cells with the bitwise or of the source,
    [neighbour_activation] reads them as truth values. *)
Definition neighbour_bits (a : tensor Z) (W D H i j k : Z) : Z :=
  Z.lor (Z.lor (Z.lor (Z.lor (Z.lor (Z.lor (Z.lor (Z.lor (Z.lor (Z.lor
    (cell a ((i - 2) mod W) j k)
    (cell a ((i - 1) mod W) j k))
    (cell a ((i + 1) mod W) j k))
    (cell a ((i + 2) mod W) j k))
    (cell a i ((j - 2) mod D) k))
    (cell a i ((j - 1) mod D) k))
    (cell a i ((j + 1) mod D) k))
    (cell a i j ((k - 2) mod H)))
    (cell a i j ((k - 1) mod H)))
    (cell a i j ((k + 1) mod H)))
    (cell a i j ((k + 2) mod H)).

Definition neighbour_activation (a : tensor Z) (W D H i j k : Z) : bool :=
  bit (cell a ((i - 2) mod W) j k) || bit (cell a ((i - 1) mod W) j k) ||
  bit (cell a ((i + 1) mod W) j k) || bit (cell a ((i + 2) mod W) j k) ||
  bit (cell a i ((j - 2) mod D) k) || bit (cell a i ((j - 1) mod D) k) ||
  bit (cell a i ((j + 1) mod D) k) ||
  bit (cell a i j ((k - 2) mod H)) || bit (cell a i j ((k - 1) mod H)) ||
  bit (cell a i j ((k + 1) mod H)) || bit (cell a i j ((k + 2) mod H)).

(** ** Example states *)

(** The tensor of shape [(w, d, h)] whose cell [(i, j, k)] is [f i j k]. *)
Definition fill3 (w d h : nat) (f : nat -> nat -> nat -> Z) : tensor Z :=
  map (fun i => map (fun j => map (fun k => f i j k) (seq 0 h)) (seq 0 d))
      (seq 0 w).

(** A state with the given cell fields and extinction probabilities, the
    other probabilities being zero as after construction. *)
Definition state_of (w d h : nat) (fh fa fc fpe : nat -> nat -> nat -> Z)
  : CAclouds3D :=
  let W := Z.of_nat w in
  let D := Z.of_nat d in
  let H := Z.of_nat h in
  let '(gx, gy, gz) := meshgrid (arange 0 W) (arange 0 D) (arange 0 H) in
  {| width := W; depth := D; height := H;
     x := gx; y := gy; z := gz;
     hum := fill3 w d h fh; act := fill3 w d h fa; cld := fill3 w d h fc;
     f_act := zeros W D H; hum_temp := zeros W D H;
     rnd_hum := zeros W D H; rnd_act := zeros W D H; rnd_ext := zeros W D H;
     P_hum := PTensor (zeros W D H);
     P_act := zeros W D H;
     P_ext := fill3 w d h fpe;
     act2 := None |}.

(** The grid of the locality test, smaller: humidity everywhere, one active
    cell at [(1, 1, 1)], no cloud, all probabilities zero. *)
Definition seeded : CAclouds3D :=
  state_of 4 3 5
           (fun _ _ _ => 1)
           (fun i j k => if (i =? 1)%nat && (j =? 1)%nat && (k =? 1)%nat
                         then 1 else 0)
           (fun _ _ _ => 0)
           (fun _ _ _ => 0).

(** A 2 x 2 x 2 grid with cloud everywhere, nothing active, no humidity,
    and the extinction probability [pe] at every cell. *)
Definition overcast (pe : Z) : CAclouds3D :=
  state_of 2 2 2 (fun _ _ _ => 0) (fun _ _ _ => 0) (fun _ _ _ => 1)
           (fun _ _ _ => pe).

(** Freshly constructed grids of 4 x 2 x 2 and of 2 x 5 x 2 cells. *)
Definition wide : CAclouds3D :=
  state_of 4 2 2 (fun _ _ _ => 0) (fun _ _ _ => 0) (fun _ _ _ => 0)
           (fun _ _ _ => 0).

Definition deep : CAclouds3D :=
  state_of 2 5 2 (fun _ _ _ => 0) (fun _ _ _ => 0) (fun _ _ _ => 0)
           (fun _ _ _ => 0).

(** The cloud field of the extraction test: 2 x 2 x 2 cells, set at
    [(0, 0, 0)] and [(1, 1, 1)] only; and a state that holds it. *)
Definition corner_cloud : tensor Z :=
  [[[1; 0]; [0; 0]]; [[0; 0]; [0; 1]]].

Definition corners : CAclouds3D :=
  state_of 2 2 2 (fun _ _ _ => 0) (fun _ _ _ => 0)
           (fun i j k => get3 0 corner_cloud i j k)
           (fun _ _ _ => 0).

(** Draws that are the same number at every cell. *)
Definition const_draws (vh va ve : Z) : draws :=
  {| draw_hum := fun _ _ _ => vh;
     draw_act := fun _ _ _ => va;
     draw_ext := fun _ _ _ => ve |}.

(** The coordinates of all cells of a [w] x [d] x [h] grid in row-major
    order. *)
Definition indices (w d h : Z) : list (Z * Z * Z) :=
  flat_map (fun i => flat_map (fun j => map (fun k => (i, j, k))
                                           (arange 0 h))
                              (arange 0 d))
           (arange 0 w).

(* ================================================================== *)
(** ** The export script

    [src/Clouds/cloud3DwExport.py] crops the cloud field to the bounding
    box of its non-zero cells before it writes the voxel file. *)

(** [l[a:b]]. *)
Definition slice {A : Type} (a b : Z) (l : list A) : list A :=
  let lo := slice_bound (length l) a in
  let hi := slice_bound (length l) b in
  firstn (hi - lo) (skipn lo l).

(** [np.argwhere(xyz)] for an array of shape [(W, D, H)]: the coordinates
    of the cells that are not zero, in row-major order. *)
Definition argwhere (W D H : Z) (xyz : tensor Z) : list (Z * Z * Z) :=
  filter (fun p => negb (cell xyz (fst (fst p)) (snd (fst p)) (snd p) =? 0))
         (indices W D H).

(** The minimum and the maximum of one column of [a.min(axis=0)] and
    [a.max(axis=0)]; numpy raises [ValueError] on an array without rows
    ([None]). *)
Definition column_min (l : list Z) : option Z :=
  match l with
  | [] => None
  | a :: l' => Some (fold_left Z.min l' a)
  end.

Definition column_max (l : list Z) : option Z :=
  match l with
  | [] => None
  | a :: l' => Some (fold_left Z.max l' a)
  end.

Record box : Type := mkBox {
  x_min : Z; y_min : Z; z_min : Z;
  x_max : Z; y_max : Z; z_max : Z
}.

Definition bounding_box (coordinates_xyz : list (Z * Z * Z)) : option box :=
  let xs := map (fun p => fst (fst p)) coordinates_xyz in
  let ys := map (fun p => snd (fst p)) coordinates_xyz in
  let zs := map (fun p => snd p) coordinates_xyz in
  match column_min xs, column_min ys, column_min zs,
        column_max xs, column_max ys, column_max zs with
  | Some a, Some b, Some c, Some a', Some b', Some c' =>
      Some (mkBox a b c a' b' c')
  | _, _, _, _, _, _ => None
  end.

(** [xyz[x_min:x_max+1, y_min:y_max+1, z_min:z_max+1]]. *)
Definition crop (b : box) (xyz : tensor Z) : tensor Z :=
  map (map (slice (z_min b) (z_max b + 1)))
      (map (slice (y_min b) (y_max b + 1))
           (slice (x_min b) (x_max b + 1) xyz)).

(** The dense volume handed to the voxel writer, [None] when the script
    stops with the [ValueError]. *)
Definition export_volume (s : CAclouds3D) : option (tensor Z) :=
  let xyz := cld s in
  let coordinates_xyz := argwhere (width s) (depth s) (height s) xyz in
  match bounding_box coordinates_xyz with
  | Some b => Some (crop b xyz)
  | None => None
  end.

(* ================================================================== *)
(** ** Lists: element-wise maps, rotations *)

Section ListFacts.

Context {A B C : Type}.

Lemma map2_length (f : A -> B -> C) (l1 : list A) (l2 : list B) :
  length (map2 f l1 l2) = Nat.min (length l1) (length l2).
Proof.
  revert l2; induction l1 as [|a l1 IH]; intros [|b l2]; simpl; auto.
Qed.

Lemma map2_nth (f : A -> B -> C) (l1 : list A) (l2 : list B)
      (da : A) (db : B) (dc : C) (i : nat) :
  (i < length l1)%nat -> (i < length l2)%nat ->
  nth i (map2 f l1 l2) dc = f (nth i l1 da) (nth i l2 db).
Proof.
  revert l2 i; induction l1 as [|a l1 IH]; intros [|b l2] [|i];
    simpl; intros; try lia; auto.
  apply IH; lia.
Qed.

Lemma map2_map_same (f : B -> C -> A) (g : A -> B) (h : A -> C)
      (l : list A) :
  map2 f (map g l) (map h l) = map (fun a => f (g a) (h a)) l.
Proof. induction l; simpl; congruence. Qed.

Lemma imap_from_length (f : nat -> A -> B) (l : list A) (n : nat) :
  length (imap_from n f l) = length l.
Proof. revert n; induction l; simpl; auto. Qed.

Lemma imap_from_nth (f : nat -> A -> B) (l : list A) (n i : nat)
      (da : A) (db : B) :
  (i < length l)%nat ->
  nth i (imap_from n f l) db = f (n + i)%nat (nth i l da).
Proof.
  revert n i; induction l as [|a l IH]; intros n [|i]; simpl; intros;
    try lia.
  - f_equal; lia.
  - rewrite IH by lia. f_equal; lia.
Qed.

Lemma Forall_map2 (P : A -> Prop) (Q : B -> Prop) (R : C -> Prop)
      (f : A -> B -> C) (l1 : list A) (l2 : list B) :
  (forall a b, P a -> Q b -> R (f a b)) ->
  Forall P l1 -> Forall Q l2 -> Forall R (map2 f l1 l2).
Proof.
  intros Hf H1; revert l2; induction H1; intros l2 H2;
    destruct H2; simpl; auto.
Qed.

Lemma Forall_imap_from (P : A -> Prop) (R : B -> Prop)
      (f : nat -> A -> B) (l : list A) (n : nat) :
  (forall i a, P a -> R (f i a)) ->
  Forall P l -> Forall R (imap_from n f l).
Proof.
  intros Hf H; revert n; induction H; simpl; auto.
Qed.

End ListFacts.

(** Rotating a list: the part from position [k] on, then the part before. *)
Lemma rotate_nth {A : Type} (l : list A) (k i : nat) (d : A) :
  (k <= length l)%nat -> (i < length l)%nat ->
  nth i (skipn k l ++ firstn k l) d = nth ((i + k) mod length l) l d.
Proof.
  intros Hk Hi.
  destruct (Nat.lt_ge_cases i (length l - k)) as [Hlt | Hge].
  - rewrite app_nth1 by (rewrite length_skipn; lia).
    rewrite nth_skipn, Nat.mod_small by lia. f_equal; lia.
  - rewrite app_nth2 by (rewrite length_skipn; lia).
    rewrite length_skipn, nth_firstn.
    replace (i - (length l - k) <? k)%nat with true
      by (symmetry; apply Nat.ltb_lt; lia).
    f_equal.
    replace (i + k)%nat with ((i - (length l - k)) + 1 * length l)%nat
      by lia.
    rewrite Nat.Div0.mod_add, Nat.mod_small; lia.
Qed.

(** For the offsets of the source the slice bound is the offset modulo the
    length, also when the list is shorter than the offset. *)
Lemma slice_bound_le (n : nat) (s : Z) : (slice_bound n s <= n)%nat.
Proof. unfold slice_bound; destruct (s <? 0); lia. Qed.

Lemma rotate_index (n i : nat) (s : Z) :
  (i < n)%nat -> -2 <= s <= 2 ->
  ((i + slice_bound n s) mod n)%nat
  = Z.to_nat ((Z.of_nat i + s) mod Z.of_nat n).
Proof.
  intros Hi Hs.
  apply Nat2Z.inj.
  rewrite Z2Nat.id by (apply Z.mod_pos_bound; lia).
  rewrite Nat2Z.inj_mod, Nat2Z.inj_add.
  destruct (Nat.eq_dec n 1) as [-> | Hn].
  - change (Z.of_nat 1) with 1. now rewrite !Z.mod_1_r.
  - unfold slice_bound. rewrite Z2Nat.id by (destruct (s <? 0); lia).
    destruct (s <? 0) eqn:Hneg.
    + apply Z.ltb_lt in Hneg.
      replace (Z.min (Z.of_nat n) (Z.max 0 (s + Z.of_nat n)))
        with (s + Z.of_nat n) by lia.
      replace (Z.of_nat i + (s + Z.of_nat n))
        with (Z.of_nat i + s + 1 * Z.of_nat n) by lia.
      apply Z_mod_plus_full.
    + apply Z.ltb_ge in Hneg.
      replace (Z.min (Z.of_nat n) (Z.max 0 s)) with s by lia.
      reflexivity.
Qed.

(** [l[s:] ++ l[:s]] reads [l] at the position shifted by [s], modulo the
    length. *)
Lemma roll_nth {A : Type} (l : list A) (s : Z) (i : nat) (d : A) :
  (i < length l)%nat -> -2 <= s <= 2 ->
  nth i (from s l ++ upto s l) d
  = nth (Z.to_nat ((Z.of_nat i + s) mod Z.of_nat (length l))) l d.
Proof.
  intros Hi Hs. unfold from, upto.
  rewrite rotate_nth by (auto using slice_bound_le).
  now rewrite rotate_index.
Qed.

Lemma roll_length {A : Type} (l : list A) (s : Z) :
  length (from s l ++ upto s l) = length l.
Proof.
  unfold from, upto.
  rewrite length_app, length_skipn, length_firstn.
  pose proof (slice_bound_le (length l) s). lia.
Qed.

Lemma roll_Forall {A : Type} (P : A -> Prop) (l : list A) (s : Z) :
  Forall P l -> Forall P (from s l ++ upto s l).
Proof.
  intros H. unfold from, upto.
  generalize (slice_bound (length l) s); intros k.
  rewrite <- (firstn_skipn k l) in H.
  apply Forall_app in H. apply Forall_app. tauto.
Qed.

Lemma map_nth_in {A B : Type} (f : A -> B) (l : list A) (i : nat)
      (da : A) (db : B) :
  (i < length l)%nat -> nth i (map f l) db = f (nth i l da).
Proof.
  intros Hi. rewrite (nth_indep _ db (f da)) by (rewrite length_map; lia).
  apply map_nth.
Qed.

(* ================================================================== *)
(** ** Tensors: shapes and cells *)

Create HintDb shape.

Section ShapeFacts.

Context {A : Type}.
Variables w d h : nat.

Lemma shaped_plane (t : tensor A) (i : nat) :
  shaped w d h t -> (i < w)%nat -> length (nth i t []) = d.
Proof.
  intros [Hw Hall] Hi.
  apply (proj1 (Forall_forall _ t) Hall). apply nth_In. lia.
Qed.

Lemma shaped_row (t : tensor A) (i j : nat) :
  shaped w d h t -> (i < w)%nat -> (j < d)%nat ->
  length (nth j (nth i t []) []) = h.
Proof.
  intros Hs Hi Hj. pose proof (shaped_plane Hs Hi) as Hp.
  destruct Hs as [Hw Hall].
  assert (Hin : In (nth i t []) t) by (apply nth_In; lia).
  apply (proj1 (Forall_forall _ t) Hall) in Hin. destruct Hin as [_ Hrows].
  apply (proj1 (Forall_forall _ _) Hrows). apply nth_In. lia.
Qed.

End ShapeFacts.

Section TensorFacts.

Context {A B C : Type}.
Variables w d h : nat.

Lemma shaped_zip3 (f : A -> B -> C) (a : tensor A) (b : tensor B) :
  shaped w d h a -> shaped w d h b -> shaped w d h (zip3 f a b).
Proof.
  intros [Ha Fa] [Hb Fb]. split.
  - unfold zip3. rewrite map2_length. lia.
  - unfold zip3. eapply Forall_map2; [| exact Fa | exact Fb].
    simpl. intros p q [Hp Fp] [Hq Fq]. split.
    + rewrite map2_length. lia.
    + eapply Forall_map2; [| exact Fp | exact Fq].
      simpl. intros r r' Hr Hr'. rewrite map2_length. lia.
Qed.

Lemma shaped_map3 (f : A -> B) (a : tensor A) :
  shaped w d h a -> shaped w d h (map3 f a).
Proof.
  intros [Ha Fa]. split.
  - unfold map3. now rewrite length_map.
  - unfold map3. apply Forall_map. eapply Forall_impl; [| exact Fa].
    simpl. intros p [Hp Fp]. split.
    + now rewrite length_map.
    + apply Forall_map. eapply Forall_impl; [| exact Fp].
      simpl. intros r Hr. now rewrite length_map.
Qed.

Lemma get3_zip3 (f : A -> B -> C) (a : tensor A) (b : tensor B)
      (da : A) (db : B) (dc : C) (i j k : nat) :
  shaped w d h a -> shaped w d h b ->
  (i < w)%nat -> (j < d)%nat -> (k < h)%nat ->
  get3 dc (zip3 f a b) i j k = f (get3 da a i j k) (get3 db b i j k).
Proof.
  intros Ha Hb Hi Hj Hk. unfold get3, zip3.
  rewrite (map2_nth _ a b [] [] []) by (destruct Ha, Hb; lia).
  rewrite (map2_nth _ _ _ [] [] []);
    [ | rewrite (shaped_plane Ha); lia | rewrite (shaped_plane Hb); lia ].
  apply map2_nth.
  - rewrite (shaped_row Ha); lia.
  - rewrite (shaped_row Hb); lia.
Qed.

Lemma get3_map3 (f : A -> B) (a : tensor A) (da : A) (db : B)
      (i j k : nat) :
  shaped w d h a -> (i < w)%nat -> (j < d)%nat -> (k < h)%nat ->
  get3 db (map3 f a) i j k = f (get3 da a i j k).
Proof.
  intros Ha Hi Hj Hk. unfold get3, map3.
  rewrite (map_nth_in _ a []) by (destruct Ha; lia).
  rewrite (map_nth_in _ _ []) by (rewrite (shaped_plane Ha); lia).
  apply map_nth_in. rewrite (shaped_row Ha); lia.
Qed.

(** Rotations along the three axes. *)
Lemma cat1_roll (s : Z) (a : tensor A) :
  cat1 (from1 s a) (upto1 s a) = map (fun p => from s p ++ upto s p) a.
Proof. apply map2_map_same. Qed.

Lemma cat2_roll (s : Z) (a : tensor A) :
  cat2 (from2 s a) (upto2 s a)
  = map (map (fun r => from s r ++ upto s r)) a.
Proof.
  unfold cat2, from2, upto2. rewrite map2_map_same.
  apply map_ext. intros p. apply map2_map_same.
Qed.

Lemma shaped_roll0 (s : Z) (a : tensor A) :
  shaped w d h a -> shaped w d h (cat0 (from0 s a) (upto0 s a)).
Proof.
  intros [Ha Fa]. split.
  - unfold cat0, from0, upto0. now rewrite roll_length.
  - now apply roll_Forall.
Qed.

Lemma shaped_roll1 (s : Z) (a : tensor A) :
  shaped w d h a -> shaped w d h (cat1 (from1 s a) (upto1 s a)).
Proof.
  intros [Ha Fa]. rewrite cat1_roll. split.
  - now rewrite length_map.
  - apply Forall_map. eapply Forall_impl; [| exact Fa].
    simpl. intros p [Hp Fp]. split.
    + now rewrite roll_length.
    + now apply roll_Forall.
Qed.

Lemma shaped_roll2 (s : Z) (a : tensor A) :
  shaped w d h a -> shaped w d h (cat2 (from2 s a) (upto2 s a)).
Proof.
  intros [Ha Fa]. rewrite cat2_roll. split.
  - now rewrite length_map.
  - apply Forall_map. eapply Forall_impl; [| exact Fa].
    simpl. intros p [Hp Fp]. split.
    + now rewrite length_map.
    + apply Forall_map. eapply Forall_impl; [| exact Fp].
      simpl. intros r Hr. now rewrite roll_length.
Qed.

Lemma get3_roll0 (s : Z) (a : tensor A) (da : A) (i j k : nat) :
  shaped w d h a -> (i < w)%nat -> -2 <= s <= 2 ->
  get3 da (cat0 (from0 s a) (upto0 s a)) i j k
  = get3 da a (Z.to_nat ((Z.of_nat i + s) mod Z.of_nat w)) j k.
Proof.
  intros [Ha Fa] Hi Hs. unfold get3, cat0, from0, upto0.
  rewrite roll_nth by lia. now rewrite Ha.
Qed.

Lemma get3_roll1 (s : Z) (a : tensor A) (da : A) (i j k : nat) :
  shaped w d h a -> (i < w)%nat -> (j < d)%nat -> -2 <= s <= 2 ->
  get3 da (cat1 (from1 s a) (upto1 s a)) i j k
  = get3 da a i (Z.to_nat ((Z.of_nat j + s) mod Z.of_nat d)) k.
Proof.
  intros Hsh Hi Hj Hs. unfold get3. rewrite cat1_roll.
  rewrite (map_nth_in _ a []) by (destruct Hsh; lia).
  pose proof (shaped_plane Hsh Hi) as Hp.
  rewrite roll_nth by lia. now rewrite Hp.
Qed.

Lemma get3_roll2 (s : Z) (a : tensor A) (da : A) (i j k : nat) :
  shaped w d h a -> (i < w)%nat -> (j < d)%nat -> (k < h)%nat ->
  -2 <= s <= 2 ->
  get3 da (cat2 (from2 s a) (upto2 s a)) i j k
  = get3 da a i j (Z.to_nat ((Z.of_nat k + s) mod Z.of_nat h)).
Proof.
  intros Hsh Hi Hj Hk Hs. unfold get3. rewrite cat2_roll.
  rewrite (map_nth_in _ a []) by (destruct Hsh; lia).
  pose proof (shaped_plane Hsh Hi) as Hp.
  rewrite (map_nth_in _ _ []) by lia.
  pose proof (shaped_row Hsh Hi Hj) as Hr.
  rewrite roll_nth by lia. now rewrite Hr.
Qed.

End TensorFacts.

#[export] Hint Resolve shaped_zip3 shaped_map3 shaped_roll0 shaped_roll1
  shaped_roll2 : shape.

Lemma imap_from_nth_draw {A : Type} (g : nat -> Z) (l : list A)
      (n i : nat) (d : Z) :
  (i < length l)%nat ->
  nth i (imap_from n (fun k _ => g k) l) d = g (n + i)%nat.
Proof.
  revert n i; induction l as [|a l IH]; intros n [|i]; simpl; intros;
    try lia.
  - f_equal; lia.
  - rewrite IH by lia. f_equal; lia.
Qed.

(** A cell drawn in place holds the draw of its position. *)
Lemma shaped_random_ {A : Type} (w d h : nat) (g : Z -> Z -> Z -> Z)
      (t : tensor A) :
  shaped w d h t -> shaped w d h (random_ g t).
Proof.
  intros [Ht Ft]. split.
  - unfold random_, imap. now rewrite imap_from_length.
  - unfold random_, imap. eapply Forall_imap_from; [| exact Ft].
    simpl. intros i p [Hp Fp]. split.
    + now rewrite imap_from_length.
    + eapply Forall_imap_from; [| exact Fp].
      simpl. intros j r Hr. now rewrite imap_from_length.
Qed.

Lemma get3_random_ {A : Type} (w d h : nat) (g : Z -> Z -> Z -> Z)
      (t : tensor A) (i j k : nat) :
  shaped w d h t -> (i < w)%nat -> (j < d)%nat -> (k < h)%nat ->
  get3 0 (random_ g t) i j k = g (Z.of_nat i) (Z.of_nat j) (Z.of_nat k).
Proof.
  intros Ht Hi Hj Hk. unfold get3, random_, imap.
  rewrite (imap_from_nth _ t 0 [] []) by (destruct Ht; lia).
  rewrite (imap_from_nth _ _ 0 [] [])
    by (rewrite (shaped_plane Ht); lia).
  apply imap_from_nth_draw. rewrite (shaped_row Ht); lia.
Qed.

Lemma shaped_zeros (w d h : Z) :
  shaped (Z.to_nat w) (Z.to_nat d) (Z.to_nat h) (zeros w d h).
Proof.
  unfold zeros. split.
  - apply repeat_length.
  - apply Forall_forall. intros p Hp. apply repeat_spec in Hp. subst p.
    split; [apply repeat_length |].
    apply Forall_forall. intros r Hr. apply repeat_spec in Hr. subst r.
    apply repeat_length.
Qed.

Lemma arange_length (n : Z) : length (arange 0 n) = Z.to_nat n.
Proof. unfold arange. now rewrite length_map, length_seq, Z.sub_0_r. Qed.

Lemma arange_nth (n : Z) (i : nat) (d : Z) :
  (i < Z.to_nat n)%nat -> nth i (arange 0 n) d = Z.of_nat i.
Proof.
  intros Hi. unfold arange.
  rewrite (map_nth_in _ _ O) by (rewrite length_seq; lia).
  rewrite seq_nth by lia. lia.
Qed.

Ltac shape_tac :=
  unfold tor, tand, tinv, tlt, tgt, tlt_prob, neighbours, masked_fill,
    zeros_like;
  repeat (assumption
          || apply shaped_zeros
          || apply shaped_zip3 || apply shaped_map3
          || apply shaped_roll0 || apply shaped_roll1 || apply shaped_roll2
          || apply shaped_random_).

(** ** Shapes are kept by every operation *)

Lemma wf_init (w d h : Z) (s : CAclouds3D) : init w d h = Ok s -> wf s.
Proof.
  unfold init. destruct ((w <? 0) || (d <? 0) || (h <? 0)); [discriminate |].
  intros E. injection E as <-. constructor; simpl; try reflexivity;
    shape_tac.
Qed.

Lemma wf_cloud_growth (s : CAclouds3D) : wf s -> wf (cloud_growth s).
Proof.
  intros []. constructor; simpl; auto; shape_tac.
Qed.

Lemma wf_cloud_FormationExtinction (r : draws) (s : CAclouds3D) :
  wf s -> wf (cloud_FormationExtinction r s).
Proof.
  intros []. constructor; simpl; auto; try solve [shape_tac].
  destruct (P_hum s); simpl in *; shape_tac.
Qed.

Lemma wf_step (r : draws) (s : CAclouds3D) : wf s -> wf (step r s).
Proof.
  intros H. apply wf_cloud_FormationExtinction, wf_cloud_growth, H.
Qed.


Lemma fst_bind {A B : Type} (c : Log A) (k : A -> Log B) :
  fst (bind c k) = fst (k (fst c)).
Proof. unfold bind. destruct c as [a o]. simpl. now destruct (k a). Qed.

Lemma snd_bind {A B : Type} (c : Log A) (k : A -> Log B) :
  snd (bind c k) = snd c ++ snd (k (fst c)).
Proof. unfold bind. destruct c as [a o]. simpl. now destruct (k a). Qed.

Lemma check_P_value (f : field) (p : Z) : fst (check_P f p) = clamp_P p.
Proof.
  unfold check_P, clamp_P.
  destruct (p <? 0) eqn:E1; [apply Z.ltb_lt in E1; simpl; lia |].
  apply Z.ltb_ge in E1.
  destruct (p >? 10000) eqn:E2; simpl.
  - apply Z.gtb_lt in E2. lia.
  - rewrite Z.gtb_ltb in E2. apply Z.ltb_ge in E2. lia.
Qed.

Section Meshgrid.

Variables xs ys zs : list Z.

Let m := meshgrid xs ys zs.

Lemma shaped_meshgrid :
  shaped (length xs) (length ys) (length zs) (fst (fst m)) /\
  shaped (length xs) (length ys) (length zs) (snd (fst m)) /\
  shaped (length xs) (length ys) (length zs) (snd m).
Proof.
  unfold m, meshgrid, shaped; simpl.
  repeat split; rewrite ?length_map; auto;
    apply Forall_map, Forall_forall; intros a _;
    (split; [now rewrite length_map |]);
    apply Forall_map, Forall_forall; intros b _;
    now rewrite ?length_map.
Qed.

Lemma get3_meshgrid (i j k : nat) :
  (i < length xs)%nat -> (j < length ys)%nat -> (k < length zs)%nat ->
  get3 0 (fst (fst m)) i j k = nth i xs 0 /\
  get3 0 (snd (fst m)) i j k = nth j ys 0 /\
  get3 0 (snd m) i j k = nth k zs 0.
Proof.
  intros Hi Hj Hk. unfold m, meshgrid, get3; simpl.
  rewrite !(map_nth_in _ xs 0 []) by lia.
  rewrite !(map_nth_in _ ys 0 []) by lia.
  rewrite !(map_nth_in _ zs 0 0) by lia.
  auto.
Qed.

End Meshgrid.

(** The coordinate grids of a well-formed state. *)
Lemma wf_coords_shaped (s : CAclouds3D) :
  wf s ->
  shaped (Z.to_nat (width s)) (Z.to_nat (depth s)) (Z.to_nat (height s))
         (x s) /\
  shaped (Z.to_nat (width s)) (Z.to_nat (depth s)) (Z.to_nat (height s))
         (y s) /\
  shaped (Z.to_nat (width s)) (Z.to_nat (depth s)) (Z.to_nat (height s))
         (z s).
Proof.
  intros [Wx Wy Wz Whum Wact Wcld Wrh Wra Wre WPh WPa WPe]. rewrite Wx, Wy, Wz.
  pose proof (shaped_meshgrid (arange 0 (width s)) (arange 0 (depth s))
                              (arange 0 (height s))) as H.
  now rewrite !arange_length in H.
Qed.

Lemma wf_coords (s : CAclouds3D) (i j k : Z) :
  wf s -> 0 <= i < width s -> 0 <= j < depth s -> 0 <= k < height s ->
  cell (x s) i j k = i /\ cell (y s) i j k = j /\ cell (z s) i j k = k.
Proof.
  intros [Wx Wy Wz Whum Wact Wcld Wrh Wra Wre WPh WPa WPe] Hi Hj Hk.
  unfold cell. rewrite Wx, Wy, Wz.
  pose proof (@get3_meshgrid (arange 0 (width s)) (arange 0 (depth s))
                (arange 0 (height s)) (Z.to_nat i) (Z.to_nat j)
                (Z.to_nat k)) as H.
  rewrite !arange_length, !arange_nth, !Z2Nat.id in H by lia.
  apply H; lia.
Qed.

Section EllipticFacts.

Context {F : Type} {ops : FloatOps F}.
Variables (c_x c_y c_z : Z) (f_x f_y f_z : F) (ph pa pe : Z)
          (radius overlap : F) (s : CAclouds3D).

Let r := init_elliptic_probabilities
           c_x c_y c_z f_x f_y f_z ph pa pe radius overlap s.

(** The state [init_elliptic_probabilities] leaves, in closed form. *)
Lemma init_elliptic_state :
  fst r =
  let dist := distance s (fst (check_c_x s c_x)) (fst (check_c_y s c_y))
                       (fst (check_c_z s c_z)) (fst (check_f AxX f_x))
                       (fst (check_f AxY f_y)) (fst (check_f AxZ f_z)) in
  set_P (PScalar (clamp_P ph))
        (masked_fill (P_act s)
           (map3 (fun v => f_leb v (f_add radius (check_overlap overlap)))
                 dist)
           (clamp_P pa))
        (masked_fill (P_ext s)
           (map3 (fun v => f_ltb (f_sub radius (check_overlap overlap)) v)
                 dist)
           (clamp_P pe))
        s.
Proof.
  unfold r, init_elliptic_probabilities.
  repeat (rewrite fst_bind; cbv beta).
  now rewrite !check_P_value.
Qed.

Lemma shaped_distance (a b c : Z) (fa fb fc : F) :
  wf s ->
  shaped (Z.to_nat (width s)) (Z.to_nat (depth s)) (Z.to_nat (height s))
         (distance s a b c fa fb fc).
Proof.
  intros H. destruct (wf_coords_shaped H) as (Hx & Hy & Hz).
  unfold distance. shape_tac.
Qed.

Lemma wf_init_elliptic : wf s -> wf (fst r).
Proof.
  intros H. rewrite init_elliptic_state. pose proof (shaped_distance) as D.
  destruct H. constructor; simpl; auto.
  - unfold masked_fill. apply shaped_zip3; auto. apply shaped_map3.
    apply D. now constructor.
  - unfold masked_fill. apply shaped_zip3; auto. apply shaped_map3.
    apply D. now constructor.
Qed.

End EllipticFacts.

Lemma reachable_wf (s : CAclouds3D) : reachable s -> wf s.
Proof.
  induction 1;
    eauto using wf_init, wf_init_elliptic, wf_step.
Qed.

(* ================================================================== *)
(** ** Phase 1: growth *)

Ltac in_shape :=
  solve [ lia | assumption | shape_tac ].

Lemma neighbours_cell (a : tensor Z) (W D H i j k : Z) :
  shaped (Z.to_nat W) (Z.to_nat D) (Z.to_nat H) a ->
  0 <= i < W -> 0 <= j < D -> 0 <= k < H ->
  cell (neighbours a) i j k = neighbour_bits a W D H i j k.
Proof.
  intros Ha Hi Hj Hk. unfold cell, neighbours, tor.
  repeat (rewrite (@get3_zip3 _ _ _ (Z.to_nat W) (Z.to_nat D) (Z.to_nat H)
                              _ _ _ 0 0 0); [| in_shape ..]).
  rewrite !(@get3_roll0 _ (Z.to_nat W) (Z.to_nat D) (Z.to_nat H))
    by in_shape.
  rewrite !(@get3_roll1 _ (Z.to_nat W) (Z.to_nat D) (Z.to_nat H))
    by in_shape.
  rewrite !(@get3_roll2 _ (Z.to_nat W) (Z.to_nat D) (Z.to_nat H))
    by in_shape.
  rewrite !Z2Nat.id by lia.
  unfold neighbour_bits, cell.
  change (i + -2) with (i - 2). change (i + -1) with (i - 1).
  change (j + -2) with (j - 2). change (j + -1) with (j - 1).
  change (k + -2) with (k - 2). change (k + -1) with (k - 1).
  reflexivity.
Qed.

(** The cells after [__cloud_growth__], with the operators of the source:
    every right-hand side reads the state before the call only. *)
Lemma cloud_growth_cells (s : CAclouds3D) (i j k : Z) :
  wf s ->
  0 <= i < width s -> 0 <= j < depth s -> 0 <= k < height s ->
  cell (cld (cloud_growth s)) i j k
  = Z.lor (cell (cld s) i j k) (cell (act s) i j k) /\
  cell (act (cloud_growth s)) i j k
  = Z.land (Z.land (inv8 (cell (act s) i j k)) (cell (hum s) i j k))
           (neighbour_bits (act s) (width s) (depth s) (height s) i j k) /\
  cell (hum (cloud_growth s)) i j k
  = Z.land (cell (hum s) i j k) (inv8 (cell (act s) i j k)).
Proof.
  intros Hwf Hi Hj Hk. destruct Hwf.
  rewrite <- neighbours_cell by assumption.
  unfold cell; simpl. unfold tor, tand, tinv.
  repeat (rewrite (@get3_zip3 _ _ _ (Z.to_nat (width s))
                              (Z.to_nat (depth s)) (Z.to_nat (height s))
                              _ _ _ 0 0 0); [| in_shape ..]).
  rewrite !(@get3_map3 _ _ (Z.to_nat (width s)) (Z.to_nat (depth s))
                       (Z.to_nat (height s)) _ _ 0 0) by in_shape.
  auto.
Qed.

(* ================================================================== *)
(** ** Properties of all cells *)

Section AllCells.

Context {A B C : Type}.

Lemma all_zip3 (P : A -> Prop) (Q : B -> Prop) (R : C -> Prop)
      (f : A -> B -> C) (a : tensor A) (b : tensor B) :
  (forall u v, P u -> Q v -> R (f u v)) ->
  Forall (Forall (Forall P)) a -> Forall (Forall (Forall Q)) b ->
  Forall (Forall (Forall R)) (zip3 f a b).
Proof.
  intros Hf. unfold zip3.
  apply Forall_map2. intros p q. apply Forall_map2. intros r r'.
  now apply Forall_map2.
Qed.

Lemma all_map3 (P : A -> Prop) (R : B -> Prop) (f : A -> B)
      (a : tensor A) :
  (forall u, P u -> R (f u)) ->
  Forall (Forall (Forall P)) a -> Forall (Forall (Forall R)) (map3 f a).
Proof.
  intros Hf Ha. unfold map3.
  apply Forall_map. eapply Forall_impl; [| exact Ha]. simpl. intros p Hp.
  apply Forall_map. eapply Forall_impl; [| exact Hp]. simpl. intros r Hr.
  apply Forall_map. eapply Forall_impl; [| exact Hr]. auto.
Qed.

Lemma all_top (a : tensor A) :
  Forall (Forall (Forall (fun _ => True))) a.
Proof.
  repeat (apply Forall_forall; intros ? _). exact I.
Qed.

Lemma all_random_ (R : Z -> Prop) (g : Z -> Z -> Z -> Z) (a : tensor A) :
  (forall i j k, R (g i j k)) ->
  Forall (Forall (Forall R)) (random_ g a).
Proof.
  intros Hg. unfold random_, imap.
  apply Forall_imap_from with (P := fun _ => True);
    [| apply Forall_forall; auto].
  intros i p _.
  apply Forall_imap_from with (P := fun _ => True);
    [| apply Forall_forall; auto].
  intros j r _.
  apply Forall_imap_from with (P := fun _ => True);
    [| apply Forall_forall; auto].
  auto.
Qed.

Lemma all_roll0 (P : A -> Prop) (s : Z) (a : tensor A) :
  Forall (Forall (Forall P)) a ->
  Forall (Forall (Forall P)) (cat0 (from0 s a) (upto0 s a)).
Proof. apply roll_Forall. Qed.

Lemma all_roll1 (P : A -> Prop) (s : Z) (a : tensor A) :
  Forall (Forall (Forall P)) a ->
  Forall (Forall (Forall P)) (cat1 (from1 s a) (upto1 s a)).
Proof.
  intros Ha. rewrite cat1_roll.
  apply Forall_map. eapply Forall_impl; [| exact Ha]. simpl.
  intros p. apply roll_Forall.
Qed.

Lemma all_roll2 (P : A -> Prop) (s : Z) (a : tensor A) :
  Forall (Forall (Forall P)) a ->
  Forall (Forall (Forall P)) (cat2 (from2 s a) (upto2 s a)).
Proof.
  intros Ha. rewrite cat2_roll.
  apply Forall_map. eapply Forall_impl; [| exact Ha]. simpl. intros p Hp.
  apply Forall_map. eapply Forall_impl; [| exact Hp]. simpl.
  intros r. apply roll_Forall.
Qed.

Lemma all_get3 (P : A -> Prop) (a : tensor A) (d : A) (i j k : nat) :
  Forall (Forall (Forall P)) a -> P d -> P (get3 d a i j k).
Proof.
  intros Ha Hd. unfold get3.
  assert (Hp : Forall (Forall P) (nth i a [])).
  { destruct (Nat.lt_ge_cases i (length a)).
    - apply (proj1 (Forall_forall _ a) Ha). now apply nth_In.
    - rewrite nth_overflow by lia. constructor. }
  assert (Hr : Forall P (nth j (nth i a []) [])).
  { destruct (Nat.lt_ge_cases j (length (nth i a []))).
    - apply (proj1 (Forall_forall _ _) Hp). now apply nth_In.
    - rewrite nth_overflow by lia. constructor. }
  destruct (Nat.lt_ge_cases k (length (nth j (nth i a []) []))).
  - apply (proj1 (Forall_forall _ _) Hr). now apply nth_In.
  - now rewrite nth_overflow by lia.
Qed.

End AllCells.

(** ** Bits *)

Lemma bit_b2z (b : bool) : bit (Z.b2z b) = b.
Proof. now destruct b. Qed.

Lemma binary_b2z (c : Z) : c = 0 \/ c = 1 -> c = Z.b2z (bit c).
Proof. now intros [-> | ->]. Qed.

Lemma lor_b2z (a b : bool) : Z.lor (Z.b2z a) (Z.b2z b) = Z.b2z (a || b).
Proof. now destruct a, b. Qed.

Lemma land_b2z (a b : bool) : Z.land (Z.b2z a) (Z.b2z b) = Z.b2z (a && b).
Proof. now destruct a, b. Qed.

Lemma land_inv8_b2z (a b : bool) :
  Z.land (inv8 (Z.b2z a)) (Z.b2z b) = Z.b2z (negb a && b).
Proof. now destruct a, b. Qed.

Lemma land_b2z_inv8 (a b : bool) :
  Z.land (Z.b2z b) (inv8 (Z.b2z a)) = Z.b2z (b && negb a).
Proof. now destruct a, b. Qed.

Lemma binary_lor (a b : Z) :
  a = 0 \/ a = 1 -> b = 0 \/ b = 1 -> Z.lor a b = 0 \/ Z.lor a b = 1.
Proof. intros [-> | ->] [-> | ->]; simpl; auto. Qed.

Lemma binary_land_l (a b : Z) :
  a = 0 \/ a = 1 -> Z.land a b = 0 \/ Z.land a b = 1.
Proof.
  intros [-> | ->]; [now left |].
  replace (Z.land 1 b) with (Z.land b (Z.ones 1)) by apply Z.land_comm.
  rewrite Z.land_ones by lia.
  change (2 ^ 1) with 2. pose proof (Z.mod_pos_bound b 2). lia.
Qed.

Lemma binary_land_r (a b : Z) :
  b = 0 \/ b = 1 -> Z.land a b = 0 \/ Z.land a b = 1.
Proof. rewrite Z.land_comm. apply binary_land_l. Qed.

Lemma binary_cell (t : tensor Z) (i j k : Z) :
  binary t -> cell t i j k = 0 \/ cell t i j k = 1.
Proof.
  intros Ht. unfold cell.
  apply (all_get3 (P := fun c => c = 0 \/ c = 1)); auto.
Qed.

Lemma binary_neighbours (a : tensor Z) : binary a -> binary (neighbours a).
Proof.
  intros Ha. unfold binary, neighbours, tor.
  repeat (apply (all_zip3 (P := fun c => c = 0 \/ c = 1)
                          (Q := fun c => c = 0 \/ c = 1));
          [exact binary_lor | |]);
    (apply all_roll0 || apply all_roll1 || apply all_roll2); exact Ha.
Qed.

Lemma binary_zeros (w d h : Z) : binary (zeros w d h).
Proof.
  unfold binary, zeros.
  repeat (apply Forall_forall; intros ? ?Hin; apply repeat_spec in Hin;
          subst).
  now left.
Qed.

Lemma binary_cloud_growth (s : CAclouds3D) :
  binary (hum s) -> binary (act s) -> binary (cld s) ->
  binary (hum (cloud_growth s)) /\ binary (act (cloud_growth s)) /\
  binary (cld (cloud_growth s)).
Proof.
  intros Hh Ha Hc. simpl. unfold tand, tor, tinv. repeat split.
  - eapply all_zip3; [| exact Hh | apply all_top].
    intros u v Hu _. now apply binary_land_l.
  - eapply all_zip3; [| apply all_top | apply binary_neighbours, Ha].
    intros u v _ Hv. now apply binary_land_r.
  - eapply all_zip3; [| exact Hc | exact Ha]. exact binary_lor.
Qed.

Lemma binary_of_b2z (b : bool) : Z.b2z b = 0 \/ Z.b2z b = 1.
Proof. destruct b; auto. Qed.

Lemma binary_tlt (a b : tensor Z) : binary (tlt a b).
Proof.
  unfold binary, tlt.
  eapply all_zip3; [| apply all_top | apply all_top].
  intros; apply binary_of_b2z.
Qed.

Lemma binary_tgt (a b : tensor Z) : binary (tgt a b).
Proof.
  unfold binary, tgt.
  eapply all_zip3; [| apply all_top | apply all_top].
  intros; apply binary_of_b2z.
Qed.

Lemma binary_tlt_prob (a : tensor Z) (p : prob) : binary (tlt_prob a p).
Proof.
  destruct p as [t | v]; simpl; [apply binary_tlt |].
  unfold binary. eapply all_map3; [| apply all_top].
  intros; apply binary_of_b2z.
Qed.

Lemma binary_cloud_FormationExtinction (r : draws) (s : CAclouds3D) :
  binary (hum s) -> binary (act s) -> binary (cld s) ->
  binary (hum (cloud_FormationExtinction r s)) /\
  binary (act (cloud_FormationExtinction r s)) /\
  binary (cld (cloud_FormationExtinction r s)).
Proof.
  intros Hh Ha Hc. simpl. unfold tand, tor. repeat split.
  - eapply all_zip3; [| exact Hh | apply binary_tlt_prob]. exact binary_lor.
  - eapply all_zip3; [| exact Ha | apply binary_tlt]. exact binary_lor.
  - eapply all_zip3; [| exact Hc | apply all_top].
    intros u v Hu _. now apply binary_land_l.
Qed.

Lemma binary_step (r : draws) (s : CAclouds3D) :
  binary (hum s) -> binary (act s) -> binary (cld s) ->
  binary (hum (step r s)) /\ binary (act (step r s)) /\
  binary (cld (step r s)).
Proof.
  intros Hh Ha Hc. destruct (binary_cloud_growth s Hh Ha Hc) as (? & ? & ?).
  now apply binary_cloud_FormationExtinction.
Qed.

Lemma binary_init (w d h : Z) (s : CAclouds3D) :
  init w d h = Ok s -> binary (hum s) /\ binary (act s) /\ binary (cld s).
Proof.
  unfold init. destruct ((w <? 0) || (d <? 0) || (h <? 0)); [discriminate |].
  intros E. injection E as <-. simpl. auto using binary_zeros.
Qed.

Lemma lor_bits (a b : Z) :
  a = 0 \/ a = 1 -> b = 0 \/ b = 1 -> Z.lor a b = Z.b2z (bit a || bit b).
Proof. now intros [-> | ->] [-> | ->]. Qed.

Lemma bit_lor (a b : Z) :
  a = 0 \/ a = 1 -> b = 0 \/ b = 1 -> bit (Z.lor a b) = bit a || bit b.
Proof. now intros [-> | ->] [-> | ->]. Qed.

Ltac bin_cells :=
  repeat apply binary_lor; apply binary_cell; assumption.

(** On a binary field the bitwise or of the neighbourhood is the logical
    one. *)
Lemma neighbour_bits_b2z (a : tensor Z) (W D H i j k : Z) :
  binary a ->
  neighbour_bits a W D H i j k
  = Z.b2z (neighbour_activation a W D H i j k).
Proof.
  intros Ha. unfold neighbour_bits, neighbour_activation.
  rewrite lor_bits by bin_cells.
  repeat (rewrite bit_lor by bin_cells).
  reflexivity.
Qed.

(* ================================================================== *)
(** ** Claims on the growth phase *)

(** C1.  Phase 1 of [step] is [__cloud_growth__]; on a state with binary
    fields it leaves, at every cell, [C = C0 OR A0],
    [A = (NOT A0) AND H0 AND] the OR of [A0] at the eleven periodic
    offsets (axis 1: -2, -1, +1, +2; axis 2: -2, -1, +1; axis 3: -2, -1,
    +1, +2; indices modulo the axis length) and [H = H0 AND (NOT A0)],
    where [A0], [H0], [C0] are the fields before the call: no right-hand
    side reads a field written by the phase. *)
Theorem growth_from_snapshot (s : CAclouds3D) (r : draws) (i j k : Z) :
  wf s -> binary (hum s) -> binary (act s) -> binary (cld s) ->
  0 <= i < width s -> 0 <= j < depth s -> 0 <= k < height s ->
  step r s = cloud_FormationExtinction r (cloud_growth s) /\
  cell (cld (cloud_growth s)) i j k
  = Z.b2z (bit (cell (cld s) i j k) || bit (cell (act s) i j k)) /\
  cell (act (cloud_growth s)) i j k
  = Z.b2z (negb (bit (cell (act s) i j k)) && bit (cell (hum s) i j k)
           && neighbour_activation (act s) (width s) (depth s) (height s)
                                   i j k) /\
  cell (hum (cloud_growth s)) i j k
  = Z.b2z (bit (cell (hum s) i j k) && negb (bit (cell (act s) i j k))).
Proof.
  intros Hwf Bh Ba Bc Hi Hj Hk.
  destruct (cloud_growth_cells Hwf Hi Hj Hk) as (Ec & Ea & Eh).
  rewrite Ec, Ea, Eh. clear Ec Ea Eh.
  rewrite neighbour_bits_b2z by assumption.
  pose proof (binary_cell i j k Bh) as Xh.
  pose proof (binary_cell i j k Ba) as Xa.
  pose proof (binary_cell i j k Bc) as Xc.
  split; [reflexivity |].
  destruct (neighbour_activation (act s) (width s) (depth s) (height s)
                                 i j k);
    destruct Xh as [-> | ->], Xa as [-> | ->], Xc as [-> | ->];
    repeat split; reflexivity.
Qed.

(** ** Example states are well formed *)

Ltac forall_cells :=
  repeat first [ apply Forall_nil | apply Forall_cons
               | split | reflexivity | left; reflexivity
               | right; reflexivity ].

Lemma wf_seeded : wf seeded.
Proof. constructor; try reflexivity; split; forall_cells. Qed.

Lemma binary_seeded :
  binary (hum seeded) /\ binary (act seeded) /\ binary (cld seeded).
Proof. repeat split; forall_cells. Qed.

Lemma growth_from_snapshot_witness :
  wf seeded /\
  cell (act seeded) 1 1 1 = 1 /\
  cell (act (cloud_growth seeded)) 3 1 1 = 1 /\
  cell (act (cloud_growth seeded)) 1 1 1 = 0.
Proof.
  destruct binary_seeded as (Bh & Ba & Bc).
  split; [exact wf_seeded |]. split; [reflexivity |]. split.
  - destruct (@growth_from_snapshot seeded (const_draws 0 0 0) 3 1 1
                wf_seeded Bh Ba Bc) as (_ & _ & E & _);
      [ simpl; lia .. | rewrite E; reflexivity ].
  - destruct (@growth_from_snapshot seeded (const_draws 0 0 0) 1 1 1
                wf_seeded Bh Ba Bc) as (_ & _ & E & _);
      [ simpl; lia .. | rewrite E; reflexivity ].
Defined.

(* ================================================================== *)
(** ** Phase 2: formation and extinction *)

Lemma tlt_prob_cell (a : tensor Z) (p : prob) (w d h : nat) (i j k : Z) :
  shaped w d h a -> prob_shaped w d h p ->
  (Z.to_nat i < w)%nat -> (Z.to_nat j < d)%nat -> (Z.to_nat k < h)%nat ->
  cell (tlt_prob a p) i j k = Z.b2z (cell a i j k <? prob_at p i j k).
Proof.
  intros Ha Hp Hi Hj Hk. unfold cell. destruct p as [t | v]; simpl in *.
  - unfold tlt, cell.
    now rewrite (@get3_zip3 _ _ _ w d h _ _ _ 0 0 0 _ _ _ Ha Hp Hi Hj Hk).
  - now rewrite (@get3_map3 _ _ w d h _ _ 0 0 _ _ _ Ha Hi Hj Hk).
Qed.

Lemma shaped_tlt_prob (a : tensor Z) (p : prob) (w d h : nat) :
  shaped w d h a -> prob_shaped w d h p -> shaped w d h (tlt_prob a p).
Proof. destruct p; simpl; intros; shape_tac. Qed.

Lemma random_cell (g : Z -> Z -> Z -> Z) (t : tensor Z) (w d h : nat)
      (i j k : Z) :
  shaped w d h t -> 0 <= i -> 0 <= j -> 0 <= k ->
  (Z.to_nat i < w)%nat -> (Z.to_nat j < d)%nat -> (Z.to_nat k < h)%nat ->
  cell (random_ g t) i j k = g i j k.
Proof.
  intros Ht Hi Hj Hk Li Lj Lk. unfold cell.
  rewrite (@get3_random_ _ w d h g t _ _ _ Ht Li Lj Lk).
  now rewrite !Z2Nat.id.
Qed.

(** The cells after [__cloud_FormationExtinction__], with the operators of
    the source. *)
Lemma formation_extinction_cells (s : CAclouds3D) (r : draws) (i j k : Z) :
  wf s ->
  0 <= i < width s -> 0 <= j < depth s -> 0 <= k < height s ->
  let s' := cloud_FormationExtinction r s in
  (cell (rnd_hum s') i j k = draw_hum r i j k /\
   cell (rnd_act s') i j k = draw_act r i j k /\
   cell (rnd_ext s') i j k = draw_ext r i j k) /\
  cell (hum s') i j k
  = Z.lor (cell (hum s) i j k)
          (Z.b2z (draw_hum r i j k <? prob_at (P_hum s) i j k)) /\
  cell (act s') i j k
  = Z.lor (cell (act s) i j k)
          (Z.b2z (draw_act r i j k <? cell (P_act s) i j k)) /\
  cell (cld s') i j k
  = Z.land (cell (cld s) i j k)
           (Z.b2z (draw_ext r i j k >? cell (P_ext s) i j k)).
Proof.
  intros Hwf Hi Hj Hk.
  destruct Hwf as [Wx Wy Wz Whum Wact Wcld Wrh Wra Wre WPh WPa WPe]. simpl.
  assert (Li : (Z.to_nat i < Z.to_nat (width s))%nat) by lia.
  assert (Lj : (Z.to_nat j < Z.to_nat (depth s))%nat) by lia.
  assert (Lk : (Z.to_nat k < Z.to_nat (height s))%nat) by lia.
  pose proof (@shaped_random_ _ _ _ _ (draw_hum r) _ Wrh) as Sh.
  pose proof (@shaped_random_ _ _ _ _ (draw_act r) _ Wra) as Sa.
  pose proof (@shaped_random_ _ _ _ _ (draw_ext r) _ Wre) as Se.
  assert (Rh := @random_cell (draw_hum r) _ _ _ _ i j k Wrh
                  (proj1 Hi) (proj1 Hj) (proj1 Hk) Li Lj Lk).
  assert (Ra := @random_cell (draw_act r) _ _ _ _ i j k Wra
                  (proj1 Hi) (proj1 Hj) (proj1 Hk) Li Lj Lk).
  assert (Re := @random_cell (draw_ext r) _ _ _ _ i j k Wre
                  (proj1 Hi) (proj1 Hj) (proj1 Hk) Li Lj Lk).
  pose proof (@shaped_tlt_prob _ _ _ _ _ Sh WPh) as St.
  split; [auto |].
  rewrite <- Rh, <- Ra, <- Re.
  rewrite <- (@tlt_prob_cell _ _ _ _ _ i j k Sh WPh Li Lj Lk).
  unfold cell, tor, tand, tlt, tgt.
  repeat (rewrite (@get3_zip3 _ _ _ (Z.to_nat (width s))
                              (Z.to_nat (depth s)) (Z.to_nat (height s))
                              _ _ _ 0 0 0); [| in_shape ..]).
  auto.
Qed.

(** C2.  Phase 2 of [step] first overwrites the three draw grids with the
    draws of this call, then updates the fields phase 1 committed:
    [H <- H OR (R_hum < P_hum)], [A <- A OR (R_act < P_act)] and
    [C <- C AND (R_ext > P_ext)]; a cell holds cloud afterwards only if
    its draw strictly exceeds its extinction threshold.  This holds for
    all draws, those between 0 and 10000 included. *)
Theorem formation_extinction_of_step (s : CAclouds3D) (r : draws)
        (i j k : Z) :
  wf s ->
  0 <= i < width s -> 0 <= j < depth s -> 0 <= k < height s ->
  let s1 := cloud_growth s in
  let s2 := step r s in
  (cell (rnd_hum s2) i j k = draw_hum r i j k /\
   cell (rnd_act s2) i j k = draw_act r i j k /\
   cell (rnd_ext s2) i j k = draw_ext r i j k) /\
  cell (hum s2) i j k
  = Z.lor (cell (hum s1) i j k)
          (Z.b2z (draw_hum r i j k <? prob_at (P_hum s1) i j k)) /\
  cell (act s2) i j k
  = Z.lor (cell (act s1) i j k)
          (Z.b2z (draw_act r i j k <? cell (P_act s1) i j k)) /\
  cell (cld s2) i j k
  = Z.land (cell (cld s1) i j k)
           (Z.b2z (draw_ext r i j k >? cell (P_ext s1) i j k)) /\
  (cell (cld s2) i j k = 1 -> draw_ext r i j k > cell (P_ext s1) i j k).
Proof.
  intros Hwf Hi Hj Hk. cbv zeta. unfold step.
  destruct (@formation_extinction_cells (cloud_growth s) r i j k
              (wf_cloud_growth Hwf) Hi Hj Hk) as (Hr & Hh & Ha & Hc).
  repeat (split; [assumption |]).
  rewrite Hc.
  destruct (draw_ext r i j k >? cell (P_ext (cloud_growth s)) i j k) eqn:E.
  - intros _. now apply Z.gtb_gt.
  - simpl. rewrite Z.land_0_r. discriminate.
Qed.

Lemma formation_extinction_of_step_witness :
  wf seeded /\
  cell (hum (step (const_draws 5 6 7) seeded)) 1 1 1 = 0 /\
  cell (act (step (const_draws 5 6 7) seeded)) 3 1 1 = 1.
Proof.
  split; [exact wf_seeded |].
  destruct (@formation_extinction_of_step seeded (const_draws 5 6 7) 1 1 1
              wf_seeded) as (_ & Hh & _); [simpl; lia .. |].
  destruct (@formation_extinction_of_step seeded (const_draws 5 6 7) 3 1 1
              wf_seeded) as (_ & _ & Ha & _); [simpl; lia .. |].
  split; [rewrite Hh | rewrite Ha]; reflexivity.
Defined.

(* ================================================================== *)
(** ** The boundaries of the extinction threshold *)

Lemma land_lor_1 (a : Z) : Z.land (Z.lor 1 a) 1 = 1.
Proof.
  replace (Z.land (Z.lor 1 a) 1) with (Z.land (Z.lor 1 a) (Z.ones 1))
    by reflexivity.
  rewrite Z.land_ones by lia.
  change (2 ^ 1) with 2. rewrite Zmod_odd.
  rewrite <- Z.bit0_odd, Z.lor_spec. reflexivity.
Qed.

Lemma overcast_wf (pe : Z) : wf (overcast pe).
Proof. constructor; try reflexivity; split; forall_cells. Qed.

(** C3, as stated, fails: with [P_ext = 10000] at every cell and nothing
    active, a step with every draw at 5000 clears a cloud cell instead of
    leaving it; and with [P_ext = 0] and cloud everywhere the same draws
    leave the cell set although its draw is not 0. *)
Lemma extinction_boundary_counterexample :
  draws_in_range (const_draws 5000 5000 5000) /\
  (P_ext (overcast 10000) = fill3 2 2 2 (fun _ _ _ => 10000) /\
   act (overcast 10000) = fill3 2 2 2 (fun _ _ _ => 0) /\
   cell (cld (overcast 10000)) 0 0 0 = 1 /\
   cell (cld (step (const_draws 5000 5000 5000) (overcast 10000))) 0 0 0
   = 0) /\
  (P_ext (overcast 0) = fill3 2 2 2 (fun _ _ _ => 0) /\
   cld (overcast 0) = fill3 2 2 2 (fun _ _ _ => 1) /\
   draw_ext (const_draws 5000 5000 5000) 0 0 0 = 5000 /\
   cell (cld (step (const_draws 5000 5000 5000) (overcast 0))) 0 0 0 = 1).
Proof.
  split.
  - unfold draws_in_range, in_range; simpl. repeat split; lia.
  - split; repeat split.
Qed.

(** C3, amended.  For draws between 0 and 10000: with [P_ext = 10000] at
    every cell, [step] clears [C] at every cell; with [P_ext = 0] at every
    cell and [C] all true, [step] leaves [C] set at every cell except the
    cells whose extinction draw is exactly 0, which it clears. *)
Theorem extinction_boundary (s : CAclouds3D) (r : draws) :
  wf s -> draws_in_range r ->
  ((forall i j k,
       0 <= i < width s -> 0 <= j < depth s -> 0 <= k < height s ->
       cell (P_ext s) i j k = 10000) ->
   forall i j k,
     0 <= i < width s -> 0 <= j < depth s -> 0 <= k < height s ->
     cell (cld (step r s)) i j k = 0) /\
  ((forall i j k,
       0 <= i < width s -> 0 <= j < depth s -> 0 <= k < height s ->
       cell (P_ext s) i j k = 0 /\ cell (cld s) i j k = 1) ->
   forall i j k,
     0 <= i < width s -> 0 <= j < depth s -> 0 <= k < height s ->
     cell (cld (step r s)) i j k = if draw_ext r i j k =? 0 then 0 else 1).
Proof.
  intros Hwf (_ & _ & Hext). split; intros Hall i j k Hi Hj Hk.
  - destruct (@formation_extinction_cells (cloud_growth s) r i j k
                (wf_cloud_growth Hwf) Hi Hj Hk) as (_ & _ & _ & Hc).
    unfold step. rewrite Hc. simpl P_ext. rewrite (Hall i j k Hi Hj Hk).
    specialize (Hext i j k).
    replace (draw_ext r i j k >? 10000) with false
      by (symmetry; rewrite Z.gtb_ltb; apply Z.ltb_ge; lia).
    apply Z.land_0_r.
  - destruct (@formation_extinction_cells (cloud_growth s) r i j k
                (wf_cloud_growth Hwf) Hi Hj Hk) as (_ & _ & _ & Hc).
    destruct (cloud_growth_cells Hwf Hi Hj Hk) as (Hg & _).
    destruct (Hall i j k Hi Hj Hk) as (Hp & Hcld).
    unfold step. rewrite Hc, Hg. simpl P_ext. rewrite Hp, Hcld.
    specialize (Hext i j k).
    destruct (draw_ext r i j k =? 0) eqn:E.
    + apply Z.eqb_eq in E. rewrite E. simpl. apply Z.land_0_r.
    + apply Z.eqb_neq in E.
      replace (draw_ext r i j k >? 0) with true
        by (symmetry; apply Z.gtb_gt; lia).
      apply land_lor_1.
Qed.

Lemma extinction_boundary_witness :
  wf (overcast 10000) /\ draws_in_range (const_draws 0 0 10000) /\
  cell (cld (step (const_draws 0 0 10000) (overcast 10000))) 1 0 1 = 0.
Proof.
  assert (R : draws_in_range (const_draws 0 0 10000))
    by (unfold draws_in_range, in_range; simpl; repeat split; lia).
  split; [apply overcast_wf |]. split; [exact R |].
  apply (proj1 (@extinction_boundary (overcast 10000)
                  (const_draws 0 0 10000) (overcast_wf 10000) R));
    try (simpl; lia).
  intros i j k Hi Hj Hk. simpl in Hi, Hj, Hk.
  assert (Ei : i = 0 \/ i = 1) by lia.
  assert (Ej : j = 0 \/ j = 1) by lia.
  assert (Ek : k = 0 \/ k = 1) by lia.
  destruct Ei as [-> | ->], Ej as [-> | ->], Ek as [-> | ->]; reflexivity.
Defined.

(* ================================================================== *)
(** ** Elliptic probability fields: humidity *)

(** C4.  After [init_elliptic_probabilities] the humidity probability is
    the clamped [P_hum0] at every cell, whatever the masks are (the source
    stores the number itself, which every comparison spreads over the
    grid); after a second call it is the clamped value of the second call
    at every cell. *)
Theorem humidity_probability_global (F : Type) (ops : FloatOps F)
        (c_x c_y c_z : Z) (f_x f_y f_z : F) (ph pa pe : Z)
        (radius overlap : F)
        (c_x' c_y' c_z' : Z) (f_x' f_y' f_z' : F) (ph' pa' pe' : Z)
        (radius' overlap' : F) (s : CAclouds3D) (i j k : Z) :
  let s1 := fst (init_elliptic_probabilities
                   c_x c_y c_z f_x f_y f_z ph pa pe radius overlap s) in
  let s2 := fst (init_elliptic_probabilities
                   c_x' c_y' c_z' f_x' f_y' f_z' ph' pa' pe'
                   radius' overlap' s1) in
  P_hum s1 = PScalar (clamp_P ph) /\
  prob_at (P_hum s1) i j k = clamp_P ph /\
  0 <= clamp_P ph <= 10000 /\
  P_hum s2 = PScalar (clamp_P ph') /\
  prob_at (P_hum s2) i j k = clamp_P ph'.
Proof.
  cbv zeta. rewrite !init_elliptic_state. simpl.
  unfold clamp_P. repeat split; lia.
Qed.

(* ================================================================== *)
(** ** Elliptic probability fields: the center *)

(** The check of [c_x] clamps into [0, width - 1]. *)
Lemma check_c_x_value (s : CAclouds3D) (c : Z) :
  0 < width s ->
  fst (check_c_x s c) = Z.max 0 (Z.min (width s - 1) c).
Proof.
  intros Hw. unfold check_c_x.
  destruct (c <? 0) eqn:E1; [apply Z.ltb_lt in E1; simpl; lia |].
  apply Z.ltb_ge in E1.
  destruct (c >=? width s) eqn:E2; simpl.
  - rewrite Z.geb_leb in E2. apply Z.leb_le in E2. lia.
  - rewrite Z.geb_leb in E2. apply Z.leb_gt in E2. lia.
Qed.

(** C5, evaluated.  [c_y] and [c_z] are compared with the width.  On a
    4 x 2 x 2 grid [c_y = 3] is outside [0, depth - 1] = [0, 1], yet it is
    kept and nothing is printed, so that with radius and overlap 0 no cell
    is inside the inner mask; on a 2 x 5 x 2 grid [c_y = 3] is inside
    [0, 4] and is moved to 4. *)
Theorem center_check_against_width :
  depth wide - 1 = 1 /\
  check_c_y wide 3 = (3, []) /\
  check_c_z wide 3 = (3, []) /\
  snd (init_elliptic_probabilities (ops := Q_FloatOps)
         0 3 0 1%Q 1%Q 1%Q 0 7 0 0%Q 0%Q wide) = [] /\
  P_act (fst (init_elliptic_probabilities (ops := Q_FloatOps)
                0 3 0 1%Q 1%Q 1%Q 0 7 0 0%Q 0%Q wide))
  = zeros 4 2 2 /\
  cell (P_act (fst (init_elliptic_probabilities (ops := Q_FloatOps)
                      0 1 0 1%Q 1%Q 1%Q 0 7 0 0%Q 0%Q wide))) 0 1 0 = 7 /\
  depth deep - 1 = 4 /\
  check_c_y deep 3 = (4, [CenterSetToMax AxY 4 4]).
Proof. repeat split. Qed.

(* ================================================================== *)
(** ** The constructor *)

(** C6, as stated, fails: a width of 0 is not positive, yet the
    constructor returns an engine, whose grids are empty. *)
Lemma constructor_counterexample :
  (0 <= 0 \/ 3 <= 0 \/ 3 <= 0) /\
  init 0 3 3 <> Err InvalidDimension /\
  exists s, init 0 3 3 = Ok s /\ hum s = [] /\ x s = [].
Proof.
  split; [lia |]. split; [discriminate |].
  eexists. split; [reflexivity |]. split; reflexivity.
Qed.

(** C6, amended.  The constructor has no check of the dimensions and never
    raises [InvalidDimension].  With a negative dimension it fails, with
    the error of the array library, and builds nothing; with dimensions
    that are not negative, zero included, it builds the engine with the
    three dimensions stored, every grid of that shape (empty when a
    dimension is 0) and every field and probability zero. *)
Theorem constructor_builds (w d h : Z) :
  init w d h <> Err InvalidDimension /\
  (w < 0 \/ d < 0 \/ h < 0 -> init w d h = Err BackendError) /\
  (0 <= w -> 0 <= d -> 0 <= h ->
   exists s,
     init w d h = Ok s /\ wf s /\
     width s = w /\ depth s = d /\ height s = h /\
     hum s = zeros w d h /\ act s = zeros w d h /\ cld s = zeros w d h /\
     prob_zero (P_hum s) /\
     (forall i j k, cell (P_act s) i j k = 0 /\ cell (P_ext s) i j k = 0)).
Proof.
  split.
  { unfold init. destruct ((w <? 0) || (d <? 0) || (h <? 0));
      discriminate. }
  split.
  { intros Hneg. unfold init.
    replace ((w <? 0) || (d <? 0) || (h <? 0)) with true; [reflexivity |].
    symmetry. rewrite !orb_true_iff, !Z.ltb_lt. tauto. }
  intros Hw Hd Hh.
  assert (E : (w <? 0) || (d <? 0) || (h <? 0) = false).
  { rewrite !orb_false_iff. repeat split; apply Z.ltb_ge; lia. }
  assert (Z0 : Forall (Forall (Forall (fun c => c = 0)))
                      (zeros_like (zeros w d h))).
  { apply all_map3 with (P := fun _ => True); [auto | apply all_top]. }
  eexists. split; [unfold init; rewrite E; reflexivity |].
  split; [apply (@wf_init w d h); unfold init; rewrite E; reflexivity |].
  simpl. repeat (split; [reflexivity |]). split; [exact Z0 |].
  intros i j k. unfold cell. split; now apply all_get3.
Qed.

Lemma constructor_builds_witness :
  ((0 <= 0 /\ 0 <= 3 /\ 0 <= 3) /\
   exists s, init 0 3 3 = Ok s /\ width s = 0 /\ hum s = zeros 0 3 3) /\
  ((3 < 0 \/ -1 < 0 \/ 3 < 0) /\ init 3 (-1) 3 = Err BackendError).
Proof.
  split.
  - split; [lia |].
    destruct (proj2 (proj2 (@constructor_builds 0 3 3)))
      as (s & E & _ & Hw & _ & _ & Hh & _); [lia .. |].
    exists s. auto.
  - split; [lia |].
    apply (proj1 (proj2 (@constructor_builds 3 (-1) 3))). lia.
Defined.

(* ================================================================== *)
(** ** Elliptic probability fields: the masks *)

Section MaskFacts.

Context {F : Type} {ops : FloatOps F}.

Lemma distance_cell (s : CAclouds3D) (a b c : Z) (fa fb fc : F)
      (i j k : Z) :
  wf s ->
  0 <= i < width s -> 0 <= j < depth s -> 0 <= k < height s ->
  get3 f_zero (distance s a b c fa fb fc)
       (Z.to_nat i) (Z.to_nat j) (Z.to_nat k)
  = distance_at a b c fa fb fc i j k.
Proof.
  intros Hwf Hi Hj Hk.
  destruct (wf_coords_shaped Hwf) as (Sx & Sy & Sz).
  destruct (wf_coords Hwf Hi Hj Hk) as (Ex & Ey & Ez).
  unfold distance, distance_at.
  repeat (rewrite (@get3_zip3 _ _ _ (Z.to_nat (width s))
                              (Z.to_nat (depth s)) (Z.to_nat (height s))
                              _ _ _ f_zero f_zero f_zero);
          [| in_shape ..]).
  rewrite !(@get3_map3 _ _ (Z.to_nat (width s)) (Z.to_nat (depth s))
                       (Z.to_nat (height s)) _ _ 0 f_zero) by in_shape.
  unfold cell in Ex, Ey, Ez. now rewrite Ex, Ey, Ez.
Qed.

Lemma masked_fill_cell (t : tensor Z) (m : tensor bool) (v : Z)
      (w d h : nat) (i j k : Z) :
  shaped w d h t -> shaped w d h m ->
  (Z.to_nat i < w)%nat -> (Z.to_nat j < d)%nat -> (Z.to_nat k < h)%nat ->
  cell (masked_fill t m v) i j k
  = if get3 false m (Z.to_nat i) (Z.to_nat j) (Z.to_nat k)
    then v else cell t i j k.
Proof.
  intros Ht Hm Hi Hj Hk. unfold cell, masked_fill.
  now rewrite (@get3_zip3 _ _ _ w d h _ _ _ 0 false 0 _ _ _
                          Ht Hm Hi Hj Hk).
Qed.

End MaskFacts.

Lemma simulate_from_P (rng : nat -> draws) (n m : nat) (s : CAclouds3D) :
  P_act (simulate_from m rng n s) = P_act s /\
  P_ext (simulate_from m rng n s) = P_ext s /\
  P_hum (simulate_from m rng n s) = P_hum s.
Proof.
  revert m s; induction n as [|n IH]; intros m s; simpl; auto.
  destruct (IH (S m) (cloud_FormationExtinction (rng m) (cloud_growth s)))
    as (-> & -> & ->).
  auto.
Qed.

(** C7.  [init_elliptic_probabilities] sets [P_act] to the clamped
    [P_act0] at the cells whose distance [D] satisfies
    [D <= radius + overlap] and leaves it at the other cells; it sets
    [P_ext] to the clamped [P_ext0] at the cells with
    [D > radius - overlap] and leaves it at the other cells ([D] is taken
    from the checked center and stretch factors, with the checked
    overlap).  [step] and [simulate] leave [P_act] and [P_ext] as they
    are. *)
Theorem elliptic_masked_writes (F : Type) (ops : FloatOps F)
        (c_x c_y c_z : Z) (f_x f_y f_z : F) (ph pa pe : Z)
        (radius overlap : F) (s : CAclouds3D) (i j k : Z) :
  wf s ->
  0 <= i < width s -> 0 <= j < depth s -> 0 <= k < height s ->
  let s' := fst (init_elliptic_probabilities
                   c_x c_y c_z f_x f_y f_z ph pa pe radius overlap s) in
  let D := distance_at (fst (check_c_x s c_x)) (fst (check_c_y s c_y))
                       (fst (check_c_z s c_z)) (fst (check_f AxX f_x))
                       (fst (check_f AxY f_y)) (fst (check_f AxZ f_z))
                       i j k in
  cell (P_act s') i j k
  = (if f_leb D (f_add radius (check_overlap overlap))
     then clamp_P pa else cell (P_act s) i j k) /\
  cell (P_ext s') i j k
  = (if f_ltb (f_sub radius (check_overlap overlap)) D
     then clamp_P pe else cell (P_ext s) i j k) /\
  (forall r, P_act (step r s) = P_act s /\ P_ext (step r s) = P_ext s) /\
  (forall rng n, P_act (simulate rng n s) = P_act s /\
                 P_ext (simulate rng n s) = P_ext s).
Proof.
  intros Hwf Hi Hj Hk. cbv zeta. rewrite init_elliptic_state. simpl.
  assert (Li : (Z.to_nat i < Z.to_nat (width s))%nat) by lia.
  assert (Lj : (Z.to_nat j < Z.to_nat (depth s))%nat) by lia.
  assert (Lk : (Z.to_nat k < Z.to_nat (height s))%nat) by lia.
  pose proof (@shaped_distance F ops s) as Sd.
  pose proof Hwf as [_ _ _ _ _ _ _ _ _ _ WPa WPe].
  split; [| split; [| split]].
  - rewrite (@masked_fill_cell _ _ _ _ _ _ i j k WPa
               (shaped_map3 _ (Sd _ _ _ _ _ _ Hwf)) Li Lj Lk).
    rewrite (@get3_map3 _ _ _ _ _ _ _ f_zero false _ _ _
               (Sd _ _ _ _ _ _ Hwf) Li Lj Lk).
    now rewrite distance_cell.
  - rewrite (@masked_fill_cell _ _ _ _ _ _ i j k WPe
               (shaped_map3 _ (Sd _ _ _ _ _ _ Hwf)) Li Lj Lk).
    rewrite (@get3_map3 _ _ _ _ _ _ _ f_zero false _ _ _
               (Sd _ _ _ _ _ _ Hwf) Li Lj Lk).
    now rewrite distance_cell.
  - auto.
  - intros rng n. unfold simulate.
    destruct (simulate_from_P rng n 0 s) as (-> & -> & _). auto.
Qed.

Lemma wf_wide : wf wide.
Proof. constructor; try reflexivity; split; forall_cells. Qed.

Lemma elliptic_masked_writes_witness :
  wf wide /\
  cell (P_act (fst (init_elliptic_probabilities (ops := Q_FloatOps)
                      1 0 0 1%Q 1%Q 1%Q 0 7 9 1%Q 0%Q wide))) 0 0 0 = 7 /\
  cell (P_act (fst (init_elliptic_probabilities (ops := Q_FloatOps)
                      1 0 0 1%Q 1%Q 1%Q 0 7 9 1%Q 0%Q wide))) 3 0 0 = 0 /\
  cell (P_ext (fst (init_elliptic_probabilities (ops := Q_FloatOps)
                      1 0 0 1%Q 1%Q 1%Q 0 7 9 1%Q 0%Q wide))) 3 0 0 = 9.
Proof.
  split; [exact wf_wide |].
  destruct (@elliptic_masked_writes Q Q_FloatOps 1 0 0 1%Q 1%Q 1%Q 0 7 9
              1%Q 0%Q wide 0 0 0 wf_wide) as (Ea0 & _); [simpl; lia .. |].
  destruct (@elliptic_masked_writes Q Q_FloatOps 1 0 0 1%Q 1%Q 1%Q 0 7 9
              1%Q 0%Q wide 3 0 0 wf_wide) as (Ea & Ee & _);
    [simpl; lia .. |].
  rewrite Ea0, Ea, Ee. repeat split.
Defined.

(* ================================================================== *)
(** ** The fields stay binary *)

Lemma reachable_binary (s : CAclouds3D) :
  reachable s -> binary (hum s) /\ binary (act s) /\ binary (cld s).
Proof.
  induction 1 as [w d h s E | F ops c_x c_y c_z f_x f_y f_z ph pa pe rad ov
                              s Hs IH | r s Hs IH].
  - exact (@binary_init _ _ _ _ E).
  - now rewrite init_elliptic_state.
  - destruct IH as (Bh & Ba & Bc). now apply binary_step.
Qed.

(** C9.  In every state reached from the constructor by calls of
    [init_elliptic_probabilities] and [step], whatever the draws, every
    cell of [hum], [act] and [cld] is 0 or 1; so it is between the two
    phases of a step. *)
Theorem fields_binary (s : CAclouds3D) :
  reachable s ->
  (binary (hum s) /\ binary (act s) /\ binary (cld s)) /\
  (forall i j k,
      (cell (hum s) i j k = 0 \/ cell (hum s) i j k = 1) /\
      (cell (act s) i j k = 0 \/ cell (act s) i j k = 1) /\
      (cell (cld s) i j k = 0 \/ cell (cld s) i j k = 1)) /\
  (binary (hum (cloud_growth s)) /\ binary (act (cloud_growth s)) /\
   binary (cld (cloud_growth s))).
Proof.
  intros Hs. destruct (reachable_binary Hs) as (Bh & Ba & Bc).
  split; [auto |]. split.
  - intros i j k. auto using binary_cell.
  - now apply binary_cloud_growth.
Qed.

Lemma fields_binary_witness :
  reachable (step (const_draws 0 0 5)
                  (fst (init_elliptic_probabilities (ops := Q_FloatOps)
                          1 0 0 1%Q 1%Q 1%Q 9 7 9 1%Q 0%Q wide))) /\
  cell (hum (step (const_draws 0 0 5)
                  (fst (init_elliptic_probabilities (ops := Q_FloatOps)
                          1 0 0 1%Q 1%Q 1%Q 9 7 9 1%Q 0%Q wide)))) 0 0 0
  = 1 /\
  binary (act (step (const_draws 0 0 5)
                 (fst (init_elliptic_probabilities (ops := Q_FloatOps)
                         1 0 0 1%Q 1%Q 1%Q 9 7 9 1%Q 0%Q wide)))).
Proof.
  assert (R : reachable
                (step (const_draws 0 0 5)
                   (fst (init_elliptic_probabilities (ops := Q_FloatOps)
                           1 0 0 1%Q 1%Q 1%Q 9 7 9 1%Q 0%Q wide)))).
  { apply reach_step, reach_elliptic.
    apply (@reach_init 4 2 2). reflexivity. }
  split; [exact R |]. split; [reflexivity |].
  exact (proj1 (proj2 (proj1 (@fields_binary _ R)))).
Defined.

(* ================================================================== *)
(** ** Humidity without formation *)

Section Counting.

Variables (P Q : Z -> Prop) (f : Z -> Z -> Z).
Hypothesis f_sub : forall u v, P u -> Q v -> bit (f u v) = true ->
                               bit u = true.

Lemma count_row (r r' : list Z) :
  Forall P r -> Forall Q r' ->
  (length (filter bit (map2 f r r')) <= length (filter bit r))%nat.
Proof.
  intros Hr; revert r'; induction Hr as [|u r Hu Hr IH];
    intros r' Hr'; [simpl; lia |].
  destruct Hr' as [|v r' Hv Hr']; [simpl; lia |].
  simpl. specialize (IH r' Hr').
  destruct (bit (f u v)) eqn:E.
  - rewrite (f_sub Hu Hv E). simpl. lia.
  - destruct (bit u); simpl; lia.
Qed.

Lemma count_plane (p p' : list (list Z)) :
  Forall (Forall P) p -> Forall (Forall Q) p' ->
  (length (filter bit (concat (map2 (map2 f) p p')))
   <= length (filter bit (concat p)))%nat.
Proof.
  intros Hp; revert p'; induction Hp as [|r p Hr Hp IH];
    intros p' Hp'; [simpl; lia |].
  destruct Hp' as [|r' p' Hr' Hp']; [simpl; lia |].
  simpl. rewrite !filter_app, !length_app.
  specialize (IH p' Hp'). pose proof (count_row Hr Hr'). lia.
Qed.

Lemma count_zip3 (a b : tensor Z) :
  Forall (Forall (Forall P)) a -> Forall (Forall (Forall Q)) b ->
  (count_set (zip3 f a b) <= count_set a)%nat.
Proof.
  unfold count_set, flatten, zip3.
  intros Ha; revert b; induction Ha as [|p a Hp Ha IH];
    intros b Hb; [simpl; lia |].
  destruct Hb as [|p' b Hp' Hb]; [simpl; lia |].
  simpl. rewrite !concat_app, !filter_app, !length_app.
  specialize (IH b Hb). pose proof (count_plane Hp Hp'). lia.
Qed.

End Counting.

Lemma land_binary_bit (u v : Z) :
  u = 0 \/ u = 1 -> bit (Z.land u v) = true -> bit u = true.
Proof. intros [-> | ->]; simpl; auto. Qed.

(** Without humidity formation no draw is below the threshold. *)
Lemma tlt_prob_zero (g : Z -> Z -> Z -> Z) (t : tensor Z) (p : prob) :
  in_range g -> prob_zero p ->
  Forall (Forall (Forall (fun c => c = 0))) (tlt_prob (random_ g t) p).
Proof.
  intros Hg Hp.
  assert (Hr : Forall (Forall (Forall (fun c => 0 <= c))) (random_ g t)).
  { apply all_random_. intros i j k. apply Hg. }
  destruct p as [t' | v]; simpl in *.
  - unfold tlt. eapply all_zip3; [| exact Hr | exact Hp].
    simpl. intros u v Hu ->.
    replace (u <? 0) with false by (symmetry; apply Z.ltb_ge; lia).
    reflexivity.
  - subst v. eapply all_map3; [| exact Hr].
    simpl. intros u Hu.
    replace (u <? 0) with false by (symmetry; apply Z.ltb_ge; lia).
    reflexivity.
Qed.

Lemma hum_step_facts (r : draws) (s : CAclouds3D) :
  binary (hum s) -> prob_zero (P_hum s) -> in_range (draw_hum r) ->
  binary (hum (step r s)) /\
  (count_set (hum (step r s)) <= count_set (hum s))%nat.
Proof.
  intros Bh Pz Hr.
  assert (B1 : binary (tand (hum s) (tinv (act s)))).
  { eapply all_zip3; [| exact Bh | apply all_top].
    intros u v Hu _. now apply binary_land_l. }
  split.
  - simpl. unfold tor.
    eapply all_zip3; [| exact B1 | apply binary_tlt_prob]. exact binary_lor.
  - simpl. unfold tor.
    etransitivity.
    + apply count_zip3 with (P := fun _ => True) (Q := fun c => c = 0);
        [| apply all_top | apply tlt_prob_zero; assumption].
      intros u v _ ->. now rewrite Z.lor_0_r.
    + unfold tand.
      apply count_zip3 with (P := fun c => c = 0 \/ c = 1)
                            (Q := fun _ => True);
        [| exact Bh | apply all_top].
      intros u v Hu _. now apply land_binary_bit.
Qed.

(** From here on the statements mention whole steps, and implicit
    arguments are no longer computed from them. *)
Unset Implicit Arguments.

Lemma prob_zero_at (p : prob) (i j k : Z) :
  prob_zero p -> prob_at p i j k = 0.
Proof.
  destruct p as [t | v]; simpl; [| auto].
  intros Pz. unfold cell. now apply (all_get3 (P := fun c => c = 0)).
Qed.

Lemma cell_arith (h a d p : Z) :
  h = 0 \/ h = 1 -> p = 0 -> 0 <= d ->
  Z.lor (Z.land h (inv8 a)) (Z.b2z (d <? p)) <= h.
Proof.
  intros Hh -> Hd.
  replace (d <? 0) with false by (symmetry; apply Z.ltb_ge; lia).
  change (Z.b2z false) with 0. rewrite Z.lor_0_r.
  destruct Hh as [-> | ->]; [rewrite Z.land_0_l; lia |].
  destruct (@binary_land_l 1 (inv8 a) (or_intror eq_refl)) as [E | E];
    rewrite E; lia.
Qed.

(** Cell by cell, a step without formation does not raise humidity. *)
Lemma hum_step_cell (r : draws) (s : CAclouds3D) (i j k : Z) :
  wf s -> binary (hum s) -> prob_zero (P_hum s) -> in_range (draw_hum r) ->
  0 <= i < width s -> 0 <= j < depth s -> 0 <= k < height s ->
  cell (hum (step r s)) i j k <= cell (hum s) i j k.
Proof.
  intros Hwf Bh Pz Hr Hi Hj Hk.
  destruct (@formation_extinction_cells (cloud_growth s) r i j k
              (wf_cloud_growth Hwf) Hi Hj Hk) as (_ & Hh & _).
  destruct (cloud_growth_cells Hwf Hi Hj Hk) as (_ & _ & Hg).
  unfold step. rewrite Hh, Hg.
  apply cell_arith.
  - now apply binary_cell.
  - now apply (@prob_zero_at (P_hum s)).
  - apply Hr.
Qed.

Lemma hum_simulate_from (rng : nat -> draws) (n m : nat) (s : CAclouds3D) :
  wf s -> binary (hum s) -> prob_zero (P_hum s) ->
  (forall q, draws_in_range (rng q)) ->
  (count_set (hum (simulate_from m rng n s)) <= count_set (hum s))%nat /\
  (forall i j k,
      0 <= i < width s -> 0 <= j < depth s -> 0 <= k < height s ->
      cell (hum (simulate_from m rng n s)) i j k <= cell (hum s) i j k).
Proof.
  revert m s; induction n as [|n IH]; intros m s Hwf Bh Pz Hr; simpl.
  - split; [lia | intros; lia].
  - destruct (Hr m) as (Hm & _).
    destruct (hum_step_facts (rng m) s Bh Pz Hm) as (B1 & C1).
    destruct (IH (S m) (step (rng m) s) (wf_step (rng m) Hwf) B1 Pz Hr)
      as (C2 & S2).
    fold (step (rng m) s). split; [lia |].
    intros i j k Hi Hj Hk.
    pose proof (hum_step_cell (rng m) s i j k Hwf Bh Pz Hm Hi Hj Hk).
    pose proof (S2 i j k Hi Hj Hk). lia.
Qed.

(** C10.  When the humidity probability is zero at every cell (as it is
    when all probability grids are zero) and the draws lie between 0 and
    10000, repeated steps never add humidity: after [simulate(n)], and
    after a single [step], the cells of [H] that are set were set before,
    and their number has not grown. *)
Theorem humidity_never_grows (s : CAclouds3D) (rng : nat -> draws)
        (n : nat) :
  wf s -> binary (hum s) -> prob_zero (P_hum s) ->
  (forall q, draws_in_range (rng q)) ->
  (count_set (hum (simulate rng n s)) <= count_set (hum s))%nat /\
  (forall i j k,
      0 <= i < width s -> 0 <= j < depth s -> 0 <= k < height s ->
      cell (hum (simulate rng n s)) i j k = 1 -> cell (hum s) i j k = 1) /\
  (count_set (hum (step (rng O) s)) <= count_set (hum s))%nat /\
  (forall i j k,
      0 <= i < width s -> 0 <= j < depth s -> 0 <= k < height s ->
      cell (hum (step (rng O) s)) i j k = 1 -> cell (hum s) i j k = 1).
Proof.
  intros Hwf Bh Pz Hr.
  destruct (hum_simulate_from rng n 0 s Hwf Bh Pz Hr) as (Hc & Hs).
  destruct (hum_simulate_from rng 1 0 s Hwf Bh Pz Hr) as (Hc1 & Hs1).
  assert (Up : forall c i j k,
             c <= cell (hum s) i j k -> c = 1 -> cell (hum s) i j k = 1).
  { intros c i j k Hle ->.
    destruct (binary_cell i j k Bh) as [E | E]; lia. }
  split; [exact Hc |]. split; [| split; [exact Hc1 |]].
  - intros i j k Hi Hj Hk. apply Up. now apply Hs.
  - intros i j k Hi Hj Hk. apply Up. now apply Hs1.
Qed.

Lemma humidity_never_grows_witness :
  wf seeded /\ prob_zero (P_hum seeded) /\
  count_set (hum seeded) = 60%nat /\
  (count_set (hum (simulate (fun _ => const_draws 3 3 3) 2 seeded))
   <= 60)%nat.
Proof.
  assert (Pz : prob_zero (P_hum seeded)) by (simpl; forall_cells).
  assert (R : forall q : nat, draws_in_range (const_draws 3 3 3))
    by (intros _; unfold draws_in_range, in_range; simpl;
        repeat split; lia).
  split; [exact wf_seeded |]. split; [exact Pz |]. split; [reflexivity |].
  exact (proj1 (@humidity_never_grows seeded (fun _ => const_draws 3 3 3) 2
                  wf_seeded (proj1 binary_seeded) Pz R)).
Defined.

(* ================================================================== *)
(** ** Cloud positions *)

Lemma arange_In (n i : Z) : In i (arange 0 n) <-> 0 <= i < n.
Proof.
  unfold arange. rewrite in_map_iff. split.
  - intros (m & <- & Hm). apply in_seq in Hm. lia.
  - intros Hi. exists (Z.to_nat i). split; [lia |]. apply in_seq. lia.
Qed.

Lemma indices_In (W D H i j k : Z) :
  In (i, j, k) (indices W D H)
  <-> 0 <= i < W /\ 0 <= j < D /\ 0 <= k < H.
Proof.
  unfold indices. rewrite in_flat_map. split.
  - intros (i' & Hi & Hin). apply in_flat_map in Hin.
    destruct Hin as (j' & Hj & Hin). apply in_map_iff in Hin.
    destruct Hin as (k' & E & Hk). injection E as -> -> ->.
    now rewrite <- !arange_In.
  - intros (Hi & Hj & Hk). exists i. split; [now apply arange_In |].
    apply in_flat_map. exists j. split; [now apply arange_In |].
    apply in_map. now apply arange_In.
Qed.

(** The cells of a tensor given by a function of the coordinates, in
    row-major order. *)
Lemma flatten_tabulate {A : Type} (f : Z -> Z -> Z -> A)
      (xs ys zs : list Z) :
  flatten (map (fun i => map (fun j => map (fun k => f i j k) zs) ys) xs)
  = map (fun p => f (fst (fst p)) (snd (fst p)) (snd p))
        (flat_map (fun i => flat_map (fun j => map (fun k => (i, j, k)) zs)
                                     ys) xs).
Proof.
  unfold flatten. induction xs as [|i xs IH]; [reflexivity |].
  simpl. rewrite concat_app, map_app, IH. f_equal.
  clear IH. induction ys as [|j ys IH]; [reflexivity |].
  simpl. rewrite map_app, IH. f_equal.
  now rewrite map_map.
Qed.

Lemma tabulate_list {A : Type} (l : list A) (n : Z) (d : A) :
  length l = Z.to_nat n ->
  l = map (fun i => nth (Z.to_nat i) l d) (arange 0 n).
Proof.
  intros Hl. apply (nth_ext _ _ d d).
  - now rewrite length_map, arange_length.
  - intros m Hm.
    rewrite (map_nth_in _ _ 0) by (rewrite arange_length; lia).
    rewrite arange_nth by lia. now rewrite Nat2Z.id.
Qed.

Lemma shaped_tabulate (t : tensor Z) (W D H : Z) :
  shaped (Z.to_nat W) (Z.to_nat D) (Z.to_nat H) t ->
  t = map (fun i => map (fun j => map (fun k => cell t i j k) (arange 0 H))
                        (arange 0 D))
          (arange 0 W).
Proof.
  intros Ht.
  rewrite (tabulate_list t W []) at 1 by (destruct Ht; assumption).
  apply map_ext_in. intros i Hi. apply arange_In in Hi.
  assert (Li : (Z.to_nat i < Z.to_nat W)%nat) by lia.
  rewrite (tabulate_list (nth (Z.to_nat i) t []) D [])
    at 1 by (apply (shaped_plane Ht Li)).
  apply map_ext_in. intros j Hj. apply arange_In in Hj.
  assert (Lj : (Z.to_nat j < Z.to_nat D)%nat) by lia.
  rewrite (tabulate_list (nth (Z.to_nat j) (nth (Z.to_nat i) t []) []) H 0)
    at 1 by (apply (shaped_row Ht Li Lj)).
  reflexivity.
Qed.

Lemma flatten_cells (t : tensor Z) (W D H : Z) :
  shaped (Z.to_nat W) (Z.to_nat D) (Z.to_nat H) t ->
  flatten t = map (fun p => cell t (fst (fst p)) (snd (fst p)) (snd p))
                  (indices W D H).
Proof.
  intros Ht. rewrite (shaped_tabulate t W D H Ht) at 1.
  apply flatten_tabulate.
Qed.

Lemma select_map {A B : Type} (f : A -> B) (g : A -> bool) (l : list A) :
  select (map f l) (map g l) = map f (filter g l).
Proof.
  induction l as [|a l IH]; [reflexivity |].
  simpl. destruct (g a); simpl; now rewrite IH.
Qed.

Lemma filter_none {A : Type} (g : A -> bool) (l : list A) :
  (forall a, In a l -> g a = false) -> filter g l = [].
Proof.
  induction l as [|a l IH]; intros H; [reflexivity |].
  simpl. rewrite (H a (or_introl eq_refl)). apply IH.
  intros b Hb. apply H. now right.
Qed.

Lemma view3_rows {A : Type} (xs ys zs : list A) (n : nat) :
  length xs = n -> length ys = n -> length zs = n ->
  view3 (xs ++ ys ++ zs) = [xs; ys; zs].
Proof.
  intros Hx Hy Hz. unfold view3.
  rewrite !length_app, Hx, Hy, Hz.
  replace ((n + (n + n)) / 3)%nat with n
    by (replace (n + (n + n))%nat with (n * 3)%nat by lia;
        now rewrite Nat.div_mul).
  assert (F : forall (a b : list A), length a = n -> firstn n (a ++ b) = a).
  { intros a b Ha. rewrite firstn_app, Ha, Nat.sub_diag. simpl.
    rewrite app_nil_r. apply firstn_all2. lia. }
  assert (S : forall (a b : list A), length a = n -> skipn n (a ++ b) = b).
  { intros a b Ha. rewrite skipn_app, Ha, Nat.sub_diag. simpl.
    rewrite skipn_all2 by lia. reflexivity. }
  rewrite F by assumption. rewrite S by assumption.
  rewrite F by assumption.
  replace (2 * n)%nat with (n + n)%nat by lia.
  rewrite <- skipn_skipn, S by assumption. rewrite S by assumption.
  now rewrite firstn_all2 by lia.
Qed.

Lemma transpose_rows {A : Type} (fx fy fz : A -> Z) (l : list A) :
  transpose 0 [map fx l; map fy l; map fz l]
  = map (fun p => [fx p; fy p; fz p]) l.
Proof.
  destruct l as [|a l']; [reflexivity |].
  set (l := a :: l'). clearbody l.
  unfold transpose. rewrite length_map.
  apply (nth_ext _ _ [] []).
  - now rewrite !length_map, length_seq.
  - intros m Hm. rewrite length_map, length_seq in Hm.
    rewrite (map_nth_in _ _ O) by (rewrite length_seq; lia).
    rewrite seq_nth by lia. simpl.
    rewrite (map_nth_in _ l a) by lia.
    now rewrite !(map_nth_in _ l a) by lia.
Qed.

(** The rows [get_cloud_positions] returns. *)
Lemma get_cloud_positions_rows (s : CAclouds3D) :
  wf s ->
  get_cloud_positions s
  = map (fun p => [fst (fst p); snd (fst p); snd p])
        (filter (fun p => bit (cell (cld s) (fst (fst p)) (snd (fst p))
                                    (snd p)))
                (indices (width s) (depth s) (height s))).
Proof.
  intros [Wx Wy Wz _ _ Wcld _ _ _ _ _ _].
  unfold get_cloud_positions.
  rewrite (flatten_cells _ _ _ _ Wcld), map_map.
  rewrite Wx, Wy, Wz. unfold meshgrid. simpl fst; simpl snd.
  rewrite (flatten_tabulate (fun i _ _ => i) _ _ _).
  rewrite (flatten_tabulate (fun _ j _ => j) _ _ _).
  replace (map (fun _ : Z => map (fun _ : Z => arange 0 (height s))
                                 (arange 0 (depth s)))
               (arange 0 (width s)))
    with (map (fun _ : Z => map (fun _ : Z => map (fun k : Z => k)
                                                  (arange 0 (height s)))
                                (arange 0 (depth s)))
              (arange 0 (width s)))
    by (now rewrite map_id).
  rewrite (flatten_tabulate (fun _ _ k => k) _ _ _).
  fold (indices (width s) (depth s) (height s)).
  rewrite !select_map.
  rewrite (@view3_rows _ _ _ _ _ (length_map _ _) (length_map _ _)
                       (length_map _ _)).
  apply transpose_rows.
Qed.

(** C8.  [get_cloud_positions] returns one row [[x; y; z]] for every cell
    whose [cld] is 1 and no other row, in the row-major order of the
    grids (first axis slowest), which is the order of the coordinate grids
    built by the constructor; it returns no row when no cell is set; and
    for the 2 x 2 x 2 cloud field set at (0,0,0) and (1,1,1) only it
    returns exactly these two positions. *)
Theorem cloud_positions_exact (s : CAclouds3D) :
  wf s ->
  get_cloud_positions s
  = map (fun p => [fst (fst p); snd (fst p); snd p])
        (filter (fun p => bit (cell (cld s) (fst (fst p)) (snd (fst p))
                                    (snd p)))
                (indices (width s) (depth s) (height s))) /\
  (forall row,
      In row (get_cloud_positions s) <->
      exists i j k,
        row = [i; j; k] /\
        0 <= i < width s /\ 0 <= j < depth s /\ 0 <= k < height s /\
        cell (cld s) i j k = 1) /\
  ((forall i j k,
       0 <= i < width s -> 0 <= j < depth s -> 0 <= k < height s ->
       cell (cld s) i j k <> 1) ->
   get_cloud_positions s = []) /\
  (width s = 2 -> depth s = 2 -> height s = 2 -> cld s = corner_cloud ->
   get_cloud_positions s = [[0; 0; 0]; [1; 1; 1]]).
Proof.
  intros Hwf. pose proof (get_cloud_positions_rows s Hwf) as E.
  split; [exact E |]. split; [| split].
  - intros row. rewrite E, in_map_iff. split.
    + intros ([[i j] k] & <- & Hin). apply filter_In in Hin.
      destruct Hin as (Hin & Hbit). apply indices_In in Hin.
      exists i, j, k. simpl in *. apply Z.eqb_eq in Hbit. tauto.
    + intros (i & j & k & -> & Hi & Hj & Hk & Hc).
      exists (i, j, k). split; [reflexivity |].
      apply filter_In. split; [now apply indices_In |].
      simpl. now apply Z.eqb_eq.
  - intros Hnone. rewrite E.
    replace (filter _ _) with (@nil (Z * Z * Z)); [reflexivity |].
    symmetry. apply filter_none.
    intros [[i j] k] Hin. apply indices_In in Hin.
    simpl. apply Z.eqb_neq. now apply Hnone.
  - intros Hw Hd Hh Hc. rewrite E, Hw, Hd, Hh, Hc. reflexivity.
Qed.

Lemma wf_corners : wf corners.
Proof. constructor; try reflexivity; split; forall_cells. Qed.

Lemma cloud_positions_exact_witness :
  wf corners /\ cld corners = corner_cloud /\
  get_cloud_positions corners = [[0; 0; 0]; [1; 1; 1]].
Proof.
  split; [exact wf_corners |]. split; [reflexivity |].
  apply (proj2 (proj2 (proj2 (@cloud_positions_exact corners wf_corners))));
    reflexivity.
Defined.

(* ================================================================== *)
(** * Further properties of the engine *)

(** ** Simulations as sequences of steps *)

Lemma simulate_from_split (rng : nat -> draws) (n1 n2 m : nat)
      (s : CAclouds3D) :
  simulate_from m rng (n1 + n2) s
  = simulate_from (m + n1) rng n2 (simulate_from m rng n1 s).
Proof.
  revert m s; induction n1 as [|n1 IH]; intros m s; simpl.
  - now rewrite Nat.add_0_r.
  - rewrite IH. now replace (m + S n1)%nat with (S m + n1)%nat by lia.
Qed.

Lemma simulate_from_frame (rng : nat -> draws) (n m : nat)
      (s : CAclouds3D) :
  (width (simulate_from m rng n s), depth (simulate_from m rng n s),
   height (simulate_from m rng n s)) = (width s, depth s, height s) /\
  (x (simulate_from m rng n s), y (simulate_from m rng n s),
   z (simulate_from m rng n s)) = (x s, y s, z s).
Proof.
  revert m s; induction n as [|n IH]; intros m s; simpl; [auto |].
  destruct (IH (S m) (cloud_FormationExtinction (rng m) (cloud_growth s)))
    as (-> & ->).
  auto.
Qed.

Lemma wf_simulate_from (rng : nat -> draws) (n m : nat) (s : CAclouds3D) :
  wf s -> wf (simulate_from m rng n s).
Proof.
  revert m s; induction n as [|n IH]; intros m s Hwf; simpl; [exact Hwf |].
  apply IH. exact (@wf_step (rng m) s Hwf).
Qed.

Lemma reachable_simulate_from (rng : nat -> draws) (n m : nat)
      (s : CAclouds3D) :
  reachable s -> reachable (simulate_from m rng n s).
Proof.
  revert m s; induction n as [|n IH]; intros m s Hs; simpl; [exact Hs |].
  apply IH. exact (reach_step (rng m) Hs).
Qed.

Lemma reachable_helper_grids (s : CAclouds3D) :
  reachable s ->
  shaped (Z.to_nat (width s)) (Z.to_nat (depth s)) (Z.to_nat (height s))
         (f_act s) /\
  shaped (Z.to_nat (width s)) (Z.to_nat (depth s)) (Z.to_nat (height s))
         (hum_temp s) /\
  match act2 s with
  | Some t => shaped (Z.to_nat (width s)) (Z.to_nat (depth s))
                     (Z.to_nat (height s)) t
  | None => True
  end.
Proof.
  induction 1 as [w d h s E | F ops c_x c_y c_z f_x f_y f_z ph pa pe rad ov
                              s Hs IH | r s Hs IH].
  - unfold init in E.
    destruct ((w <? 0) || (d <? 0) || (h <? 0)); [discriminate |].
    injection E as <-. simpl. split; [| split]; try exact I; shape_tac.
  - rewrite init_elliptic_state. exact IH.
  - pose proof (@reachable_wf s Hs) as [_ _ _ Wh Wa Wc _ _ _ _ _ _].
    simpl. split; [| split]; shape_tac.
Qed.

(** X1.  Every grid keeps the constructed shape: in a state reached from
    the constructor, and after any further [simulate(n)], the dimensions
    are the constructed ones and each of the grids [hum], [act], [cld],
    [f_act], [hum_temp], [rnd_hum], [rnd_act], [rnd_ext], [P_act],
    [P_ext], [x], [y], [z], and [act2] once it is set, has the shape
    (width, depth, height); [P_hum] is a grid of that shape or, once
    [init_elliptic_probabilities] was called, a single number; the
    coordinate grids are untouched and hold the coordinates. *)
Theorem shape_invariance (s : CAclouds3D) (rng : nat -> draws) (n : nat) :
  reachable s ->
  wf s /\ wf (simulate rng n s) /\
  (width (simulate rng n s), depth (simulate rng n s),
   height (simulate rng n s)) = (width s, depth s, height s) /\
  (x (simulate rng n s), y (simulate rng n s), z (simulate rng n s))
  = (x s, y s, z s) /\
  (forall i j k,
      0 <= i < width s -> 0 <= j < depth s -> 0 <= k < height s ->
      cell (x (simulate rng n s)) i j k = i /\
      cell (y (simulate rng n s)) i j k = j /\
      cell (z (simulate rng n s)) i j k = k) /\
  Forall (shaped (Z.to_nat (width s)) (Z.to_nat (depth s))
                 (Z.to_nat (height s)))
         [hum (simulate rng n s); act (simulate rng n s);
          cld (simulate rng n s); f_act (simulate rng n s);
          hum_temp (simulate rng n s); rnd_hum (simulate rng n s);
          rnd_act (simulate rng n s); rnd_ext (simulate rng n s);
          P_act (simulate rng n s); P_ext (simulate rng n s);
          x (simulate rng n s); y (simulate rng n s);
          z (simulate rng n s)] /\
  (forall t, act2 (simulate rng n s) = Some t ->
             shaped (Z.to_nat (width s)) (Z.to_nat (depth s))
                    (Z.to_nat (height s)) t) /\
  ((exists t, P_hum (simulate rng n s) = PTensor t /\
              shaped (Z.to_nat (width s)) (Z.to_nat (depth s))
                     (Z.to_nat (height s)) t) \/
   (exists v, P_hum (simulate rng n s) = PScalar v)).
Proof.
  intros Hs. pose proof (@reachable_wf s Hs) as Hwf.
  destruct (simulate_from_frame rng n 0 s) as (Ed & Ex).
  pose proof (wf_simulate_from rng n 0 s Hwf) as Hwf'.
  pose proof (reachable_helper_grids _ (reachable_simulate_from rng n 0 s Hs))
    as (Sf & St & S2).
  destruct (@wf_coords_shaped _ Hwf') as (Sx & Sy & Sz).
  fold (simulate rng n s) in Ed, Ex, Hwf', Sf, St, S2, Sx, Sy, Sz.
  split; [exact Hwf |]. split; [exact Hwf' |].
  split; [exact Ed |]. split; [exact Ex |].
  split.
  { intros i j k Hi Hj Hk. injection Ex as -> -> ->.
    exact (@wf_coords s i j k Hwf Hi Hj Hk). }
  destruct Hwf' as [_ _ _ Wh Wa Wc Wrh Wra Wre WPh WPa WPe].
  injection Ed as Ew Edp Eh. rewrite Ew, Edp, Eh in *.
  split; [repeat (apply Forall_cons; [assumption |]); apply Forall_nil |].
  split.
  - intros t Et. rewrite Et in S2. exact S2.
  - destruct (P_hum (simulate rng n s)) as [t | v]; [left | right]; eauto.
Qed.

Lemma shape_invariance_witness :
  reachable wide /\
  wf (simulate (fun _ => const_draws 1 2 3) 3 wide) /\
  cell (y (simulate (fun _ => const_draws 1 2 3) 3 wide)) 3 1 0 = 1 /\
  shaped 4 2 2 (f_act (simulate (fun _ => const_draws 1 2 3) 3 wide)).
Proof.
  assert (R : reachable wide) by (apply (@reach_init 4 2 2); reflexivity).
  split; [exact R |].
  destruct (shape_invariance wide (fun _ => const_draws 1 2 3) 3 R)
    as (_ & Hwf & _ & _ & Hc & Hall & _).
  split; [exact Hwf |]. split.
  - destruct (Hc 3 1 0) as (_ & Ey & _); simpl; try lia. exact Ey.
  - exact (Forall_inv (Forall_inv_tail (Forall_inv_tail
             (Forall_inv_tail Hall)))).
Defined.

(** X2.  [simulate(n + m)] is [simulate(n)] followed by [m] further
    steps that use the following draws; in particular [simulate(n + 1)] is
    [simulate(n)] followed by one [step], and [simulate(0)] changes
    nothing. *)
Theorem simulate_compose (rng : nat -> draws) (n m : nat) (s : CAclouds3D) :
  simulate rng (n + m) s = simulate_from n rng m (simulate rng n s) /\
  simulate rng (S n) s = step (rng n) (simulate rng n s) /\
  simulate rng 0 s = s.
Proof.
  unfold simulate. split; [| split; [| reflexivity]].
  - now rewrite simulate_from_split.
  - replace (S n) with (n + 1)%nat by lia.
    now rewrite simulate_from_split.
Qed.

(** ** An engine without activity *)

Lemma zero_neighbours (a : tensor Z) :
  Forall (Forall (Forall (fun c => c = 0))) a ->
  Forall (Forall (Forall (fun c => c = 0))) (neighbours a).
Proof.
  intros Ha. unfold neighbours, tor.
  repeat (apply (@all_zip3 Z Z Z (fun c => c = 0) (fun c => c = 0)
                           (fun c => c = 0));
          [intros u v -> ->; reflexivity | |]);
    (apply all_roll0 || apply all_roll1 || apply all_roll2); exact Ha.
Qed.

Lemma tlt_zero (g : Z -> Z -> Z -> Z) (t p : tensor Z) :
  in_range g -> Forall (Forall (Forall (fun c => c = 0))) p ->
  Forall (Forall (Forall (fun c => c = 0))) (tlt (random_ g t) p).
Proof.
  intros Hg Hp. exact (@tlt_prob_zero g t (PTensor p) Hg Hp).
Qed.

(** Without active cells and without spontaneous ignition no cell becomes
    active. *)
Lemma act_stays_zero (r : draws) (s : CAclouds3D) :
  Forall (Forall (Forall (fun c => c = 0))) (act s) ->
  Forall (Forall (Forall (fun c => c = 0))) (P_act s) ->
  in_range (draw_act r) ->
  Forall (Forall (Forall (fun c => c = 0))) (act (step r s)).
Proof.
  intros Ha Hp Hr. simpl. unfold tor.
  apply (@all_zip3 Z Z Z (fun c => c = 0) (fun c => c = 0)
                   (fun c => c = 0)).
  - intros u v -> ->. reflexivity.
  - unfold tand at 1.
    apply (@all_zip3 Z Z Z (fun _ => True) (fun c => c = 0)
                     (fun c => c = 0)).
    + intros u v _ ->. apply Z.land_0_r.
    + apply all_top.
    + now apply zero_neighbours.
  - now apply tlt_zero.
Qed.

Lemma binary_cld_step (r : draws) (s : CAclouds3D) : binary (cld (step r s)).
Proof.
  simpl. unfold tand.
  apply (@all_zip3 Z Z Z (fun _ => True) (fun c => c = 0 \/ c = 1)
                   (fun c => c = 0 \/ c = 1)).
  - intros u v _ Hv. now apply binary_land_r.
  - apply all_top.
  - apply binary_tgt.
Qed.

Lemma land_255 (h : Z) : h = 0 \/ h = 1 -> Z.land h (inv8 0) = h.
Proof. now intros [-> | ->]. Qed.

Lemma land_b2z_le (c : Z) (b : bool) :
  c = 0 \/ c = 1 -> Z.land c (Z.b2z b) <= c.
Proof. intros [-> | ->]; destruct b; simpl; lia. Qed.

Lemma quiet_step_cells (r : draws) (s : CAclouds3D) (i j k : Z) :
  wf s -> binary (hum s) -> binary (cld s) ->
  Forall (Forall (Forall (fun c => c = 0))) (act s) ->
  prob_zero (P_hum s) -> in_range (draw_hum r) ->
  0 <= i < width s -> 0 <= j < depth s -> 0 <= k < height s ->
  cell (hum (step r s)) i j k = cell (hum s) i j k /\
  cell (cld (step r s)) i j k <= cell (cld s) i j k.
Proof.
  intros Hwf Bh Bc Za Pz Hr Hi Hj Hk.
  destruct (@formation_extinction_cells (cloud_growth s) r i j k
              (@wf_cloud_growth s Hwf) Hi Hj Hk) as (_ & Hh & _ & Hc).
  destruct (@cloud_growth_cells s i j k Hwf Hi Hj Hk) as (Gc & _ & Gh).
  assert (A0 : cell (act s) i j k = 0).
  { unfold cell. now apply (@all_get3 Z (fun c => c = 0)). }
  unfold step. rewrite Hh, Hc, Gc, Gh, A0. split.
  - replace (prob_at (P_hum (cloud_growth s)) i j k) with 0
      by (symmetry; now apply (prob_zero_at (P_hum s))).
    specialize (Hr i j k).
    replace (draw_hum r i j k <? 0) with false
      by (symmetry; apply Z.ltb_ge; lia).
    change (Z.b2z false) with 0. rewrite Z.lor_0_r.
    apply land_255. now apply binary_cell.
  - rewrite Z.lor_0_r. apply land_b2z_le. now apply binary_cell.
Qed.

Lemma quiet_simulate_from (rng : nat -> draws) (n m : nat)
      (s : CAclouds3D) :
  wf s -> binary (hum s) -> binary (cld s) ->
  Forall (Forall (Forall (fun c => c = 0))) (act s) ->
  prob_zero (P_hum s) ->
  Forall (Forall (Forall (fun c => c = 0))) (P_act s) ->
  (forall q, draws_in_range (rng q)) ->
  Forall (Forall (Forall (fun c => c = 0))) (act (simulate_from m rng n s))
  /\
  (forall i j k,
      0 <= i < width s -> 0 <= j < depth s -> 0 <= k < height s ->
      cell (hum (simulate_from m rng n s)) i j k = cell (hum s) i j k /\
      cell (cld (simulate_from m rng n s)) i j k <= cell (cld s) i j k).
Proof.
  revert m s; induction n as [|n IH]; intros m s Hwf Bh Bc Za Pz Pa Hr;
    simpl.
  - split; [exact Za |]. intros; split; lia.
  - destruct (Hr m) as (Rh & Ra & _).
    fold (step (rng m) s).
    destruct (hum_step_facts (rng m) s Bh Pz Rh) as (Bh1 & _).
    destruct (IH (S m) (step (rng m) s)
                 (@wf_step (rng m) s Hwf) Bh1 (binary_cld_step (rng m) s)
                 (act_stays_zero (rng m) s Za Pa Ra) Pz Pa Hr)
      as (Z2 & C2).
    split; [exact Z2 |].
    intros i j k Hi Hj Hk.
    destruct (quiet_step_cells (rng m) s i j k Hwf Bh Bc Za Pz Rh Hi Hj Hk)
      as (E1 & L1).
    destruct (C2 i j k Hi Hj Hk) as (E2 & L2).
    split; [congruence | lia].
Qed.

(** X3.  Activity is needed for anything to happen: in a state with
    binary humidity and cloud, no active cell and zero humidity and
    activation probabilities, repeated steps (draws between 0 and 10000)
    never activate a cell, leave the humidity of every cell as it is, and
    can only remove cloud. *)
Theorem quiescent_without_activity (s : CAclouds3D) (rng : nat -> draws)
        (n : nat) :
  wf s -> binary (hum s) -> binary (cld s) ->
  Forall (Forall (Forall (fun c => c = 0))) (act s) ->
  prob_zero (P_hum s) ->
  Forall (Forall (Forall (fun c => c = 0))) (P_act s) ->
  (forall q, draws_in_range (rng q)) ->
  Forall (Forall (Forall (fun c => c = 0))) (act (simulate rng n s)) /\
  (forall i j k,
      0 <= i < width s -> 0 <= j < depth s -> 0 <= k < height s ->
      cell (hum (simulate rng n s)) i j k = cell (hum s) i j k /\
      cell (cld (simulate rng n s)) i j k <= cell (cld s) i j k).
Proof. apply quiet_simulate_from. Qed.

Lemma quiescent_without_activity_witness :
  wf (overcast 5000) /\
  cell (cld (overcast 5000)) 1 1 0 = 1 /\
  cell (hum (simulate (fun _ => const_draws 0 0 5001) 2 (overcast 5000)))
       1 1 0 = 0 /\
  cell (cld (simulate (fun _ => const_draws 0 0 5001) 2 (overcast 5000)))
       1 1 0 <= 1.
Proof.
  split; [apply overcast_wf |]. split; [reflexivity |].
  assert (R : forall q : nat, draws_in_range (const_draws 0 0 5001)).
  { intros _. unfold draws_in_range, in_range; simpl.
    repeat split; lia. }
  assert (Z0 : forall t : tensor Z,
             t = fill3 2 2 2 (fun _ _ _ => 0) ->
             Forall (Forall (Forall (fun c => c = 0))) t).
  { intros t ->. forall_cells. }
  destruct (quiescent_without_activity
              (overcast 5000) (fun _ => const_draws 0 0 5001) 2
              (overcast_wf 5000)) as (_ & Hc); try assumption.
  - simpl. forall_cells.
  - simpl. forall_cells.
  - apply Z0. reflexivity.
  - simpl. apply Z0. reflexivity.
  - apply Z0. reflexivity.
  - destruct (Hc 1 1 0) as (Eh & Lc); simpl; try lia.
    split; [exact Eh | exact Lc].
Defined.

(** ** An engine that was never seeded *)

Lemma zero_fields_step (r : draws) (s : CAclouds3D) :
  Forall (Forall (Forall (fun c => c = 0))) (hum s) ->
  Forall (Forall (Forall (fun c => c = 0))) (act s) ->
  Forall (Forall (Forall (fun c => c = 0))) (cld s) ->
  prob_zero (P_hum s) ->
  Forall (Forall (Forall (fun c => c = 0))) (P_act s) ->
  draws_in_range r ->
  Forall (Forall (Forall (fun c => c = 0))) (hum (step r s)) /\
  Forall (Forall (Forall (fun c => c = 0))) (act (step r s)) /\
  Forall (Forall (Forall (fun c => c = 0))) (cld (step r s)).
Proof.
  intros Zh Za Zc Pz Pa (Rh & Ra & _). split; [| split].
  - simpl. unfold tor.
    apply (@all_zip3 Z Z Z (fun c => c = 0) (fun c => c = 0)
                     (fun c => c = 0)).
    + intros u v -> ->. reflexivity.
    + unfold tand.
      apply (@all_zip3 Z Z Z (fun c => c = 0) (fun _ => True)
                       (fun c => c = 0)).
      * intros u v -> _. apply Z.land_0_l.
      * exact Zh.
      * apply all_top.
    + now apply tlt_prob_zero.
  - now apply act_stays_zero.
  - simpl. unfold tand.
    apply (@all_zip3 Z Z Z (fun c => c = 0) (fun _ => True)
                     (fun c => c = 0)).
    + intros u v -> _. apply Z.land_0_l.
    + unfold tor.
      apply (@all_zip3 Z Z Z (fun c => c = 0) (fun c => c = 0)
                       (fun c => c = 0)).
      * intros u v -> ->. reflexivity.
      * exact Zc.
      * exact Za.
    + apply all_top.
Qed.

Lemma zero_fields_simulate_from (rng : nat -> draws) (n m : nat)
      (s : CAclouds3D) :
  Forall (Forall (Forall (fun c => c = 0))) (hum s) ->
  Forall (Forall (Forall (fun c => c = 0))) (act s) ->
  Forall (Forall (Forall (fun c => c = 0))) (cld s) ->
  prob_zero (P_hum s) ->
  Forall (Forall (Forall (fun c => c = 0))) (P_act s) ->
  (forall q, draws_in_range (rng q)) ->
  Forall (Forall (Forall (fun c => c = 0))) (hum (simulate_from m rng n s))
  /\
  Forall (Forall (Forall (fun c => c = 0))) (act (simulate_from m rng n s))
  /\
  Forall (Forall (Forall (fun c => c = 0))) (cld (simulate_from m rng n s)).
Proof.
  revert m s; induction n as [|n IH]; intros m s Zh Za Zc Pz Pa Hr; simpl;
    [auto |].
  fold (step (rng m) s).
  destruct (zero_fields_step (rng m) s Zh Za Zc Pz Pa (Hr m))
    as (Zh1 & Za1 & Zc1).
  now apply IH.
Qed.

Lemma zero_zeros (w d h : Z) :
  Forall (Forall (Forall (fun c => c = 0))) (zeros w d h).
Proof.
  unfold zeros.
  repeat (apply Forall_forall; intros ? ?Hin; apply repeat_spec in Hin;
          subst).
  reflexivity.
Qed.

(** X4.  Without a call of [init_elliptic_probabilities] nothing ever
    forms: from a freshly constructed engine, [simulate(n)] with draws
    between 0 and 10000 leaves every cell of [hum], [act] and [cld] at 0,
    and [get_cloud_positions] returns no position. *)
Theorem unseeded_engine_stays_empty (w d h : Z) (s : CAclouds3D)
        (rng : nat -> draws) (n : nat) :
  init w d h = Ok s ->
  (forall q, draws_in_range (rng q)) ->
  Forall (Forall (Forall (fun c => c = 0))) (hum (simulate rng n s)) /\
  Forall (Forall (Forall (fun c => c = 0))) (act (simulate rng n s)) /\
  Forall (Forall (Forall (fun c => c = 0))) (cld (simulate rng n s)) /\
  get_cloud_positions (simulate rng n s) = [].
Proof.
  intros E Hr.
  pose proof (@wf_init w d h s E) as Hwf.
  assert (Z0 : Forall (Forall (Forall (fun c => c = 0))) (hum s) /\
               Forall (Forall (Forall (fun c => c = 0))) (act s) /\
               Forall (Forall (Forall (fun c => c = 0))) (cld s) /\
               prob_zero (P_hum s) /\
               Forall (Forall (Forall (fun c => c = 0))) (P_act s)).
  { unfold init in E.
    destruct ((w <? 0) || (d <? 0) || (h <? 0)); [discriminate |].
    injection E as <-. simpl.
    assert (L : Forall (Forall (Forall (fun c => c = 0)))
                       (zeros_like (zeros w d h))).
    { apply (@all_map3 Z Z (fun _ => True)); [auto | apply all_top]. }
    auto using zero_zeros. }
  destruct Z0 as (Zh & Za & Zc & Pz & Pa).
  destruct (zero_fields_simulate_from rng n 0 s Zh Za Zc Pz Pa Hr)
    as (Zh' & Za' & Zc').
  repeat (split; [assumption |]).
  rewrite (get_cloud_positions_rows (simulate rng n s)
             (wf_simulate_from rng n 0 s Hwf)).
  rewrite filter_none; [reflexivity |].
  intros [[i j] k] _. simpl.
  replace (cell (cld (simulate rng n s)) i j k) with 0; [reflexivity |].
  symmetry. unfold cell. now apply (@all_get3 Z (fun c => c = 0)).
Qed.

Lemma unseeded_engine_stays_empty_witness :
  init 4 2 2 = Ok wide /\
  get_cloud_positions (simulate (fun _ => const_draws 0 0 0) 3 wide) = [].
Proof.
  split; [reflexivity |].
  apply (unseeded_engine_stays_empty 4 2 2 wide
           (fun _ => const_draws 0 0 0) 3 eq_refl).
  intros _. unfold draws_in_range, in_range; simpl. repeat split; lia.
Defined.

(** ** The life of a cell *)

Lemma growth_arith_active (h c nb : Z) :
  h = 0 \/ h = 1 -> c = 0 \/ c = 1 ->
  Z.lor c 1 = 1 /\ Z.land (Z.land (inv8 1) h) nb = 0 /\
  Z.land h (inv8 1) = 0.
Proof. intros [-> | ->] [-> | ->]; repeat split. Qed.

Lemma growth_arith_inactive (h c : Z) :
  h = 0 \/ h = 1 -> Z.lor c 0 = c /\ Z.land h (inv8 0) = h.
Proof. intros [-> | ->]; split; auto using Z.lor_0_r. Qed.

(** X5.  In the growth phase an active cell becomes cloud and loses its
    activation and its humidity, while a cell that is not active keeps its
    cloud and its humidity; so after the whole step the three fields of a
    cell that was active are decided by the draws alone. *)
Theorem active_cell_turns_into_cloud (s : CAclouds3D) (r : draws)
        (i j k : Z) :
  wf s -> binary (hum s) -> binary (cld s) ->
  0 <= i < width s -> 0 <= j < depth s -> 0 <= k < height s ->
  (cell (act s) i j k = 1 ->
   (cell (cld (cloud_growth s)) i j k = 1 /\
    cell (act (cloud_growth s)) i j k = 0 /\
    cell (hum (cloud_growth s)) i j k = 0) /\
   (cell (cld (step r s)) i j k
    = Z.b2z (draw_ext r i j k >? cell (P_ext s) i j k) /\
    cell (act (step r s)) i j k
    = Z.b2z (draw_act r i j k <? cell (P_act s) i j k) /\
    cell (hum (step r s)) i j k
    = Z.b2z (draw_hum r i j k <? prob_at (P_hum s) i j k))) /\
  (cell (act s) i j k = 0 ->
   cell (cld (cloud_growth s)) i j k = cell (cld s) i j k /\
   cell (hum (cloud_growth s)) i j k = cell (hum s) i j k).
Proof.
  intros Hwf Bh Bc Hi Hj Hk.
  destruct (@cloud_growth_cells s i j k Hwf Hi Hj Hk) as (Gc & Ga & Gh).
  destruct (@formation_extinction_cells (cloud_growth s) r i j k
              (@wf_cloud_growth s Hwf) Hi Hj Hk) as (_ & Fh & Fa & Fc).
  pose proof (@binary_cell (hum s) i j k Bh) as Xh.
  pose proof (@binary_cell (cld s) i j k Bc) as Xc.
  split; intros A0.
  - rewrite A0 in Gc, Ga, Gh.
    destruct (growth_arith_active
                (cell (hum s) i j k) (cell (cld s) i j k)
                (neighbour_bits (act s) (width s) (depth s) (height s)
                                i j k) Xh Xc) as (E1 & E2 & E3).
    rewrite E1 in Gc. rewrite E2 in Ga. rewrite E3 in Gh.
    split; [auto |].
    unfold step. rewrite Fh, Fa, Fc, Gc, Ga, Gh.
    change (P_ext (cloud_growth s)) with (P_ext s).
    change (P_act (cloud_growth s)) with (P_act s).
    change (P_hum (cloud_growth s)) with (P_hum s).
    rewrite !Z.lor_0_l.
    destruct (draw_ext r i j k >? cell (P_ext s) i j k); auto.
  - rewrite A0 in Gc, Gh.
    destruct (growth_arith_inactive
                (cell (hum s) i j k) (cell (cld s) i j k) Xh) as (E1 & E2).
    rewrite E1 in Gc. rewrite E2 in Gh. auto.
Qed.

Lemma active_cell_turns_into_cloud_witness :
  wf seeded /\ cell (act seeded) 1 1 1 = 1 /\
  cell (cld (cloud_growth seeded)) 1 1 1 = 1 /\
  cell (cld (step (const_draws 0 0 0) seeded)) 1 1 1 = 0.
Proof.
  destruct binary_seeded as (Bh & _ & Bc).
  split; [exact wf_seeded |]. split; [reflexivity |].
  destruct (active_cell_turns_into_cloud seeded (const_draws 0 0 0) 1 1 1
              wf_seeded Bh Bc) as (H1 & _); [simpl; lia .. |].
  destruct (H1 eq_refl) as ((Ec & _) & (Es & _)).
  split; [exact Ec | exact Es].
Defined.

Lemma land_one_origin (u b : Z) :
  u = 0 \/ u = 1 -> Z.land u b = 1 -> u = 1.
Proof. intros [-> | ->]; [rewrite Z.land_0_l; discriminate | auto]. Qed.

(** X6.  Cloud and activation never come from nothing: a cell that holds
    cloud after a step held cloud or was active before it, and its
    extinction draw exceeded its threshold; a cell that is active after a
    step either had an activation draw below its threshold, or was humid,
    not active, and had an active cell among its eleven neighbours. *)
Theorem no_cloud_from_nothing (s : CAclouds3D) (r : draws) (i j k : Z) :
  wf s -> binary (hum s) -> binary (act s) -> binary (cld s) ->
  0 <= i < width s -> 0 <= j < depth s -> 0 <= k < height s ->
  (cell (cld (step r s)) i j k = 1 ->
   (cell (cld s) i j k = 1 \/ cell (act s) i j k = 1) /\
   draw_ext r i j k > cell (P_ext s) i j k) /\
  (cell (act (step r s)) i j k = 1 ->
   draw_act r i j k < cell (P_act s) i j k \/
   (cell (act s) i j k = 0 /\ cell (hum s) i j k = 1 /\
    neighbour_activation (act s) (width s) (depth s) (height s) i j k
    = true)).
Proof.
  intros Hwf Bh Ba Bc Hi Hj Hk.
  destruct (@cloud_growth_cells s i j k Hwf Hi Hj Hk) as (Gc & Ga & _).
  destruct (@formation_extinction_cells (cloud_growth s) r i j k
              (@wf_cloud_growth s Hwf) Hi Hj Hk) as (_ & _ & Fa & Fc).
  pose proof (@binary_cell (hum s) i j k Bh) as Xh.
  pose proof (@binary_cell (act s) i j k Ba) as Xa.
  pose proof (@binary_cell (cld s) i j k Bc) as Xc.
  rewrite (@neighbour_bits_b2z (act s) (width s) (depth s) (height s)
             i j k Ba) in Ga.
  unfold step. rewrite Fa, Fc, Gc, Ga.
  change (P_ext (cloud_growth s)) with (P_ext s).
  change (P_act (cloud_growth s)) with (P_act s).
  split.
  - destruct (draw_ext r i j k >? cell (P_ext s) i j k) eqn:E.
    + intros H1. split; [| now apply Z.gtb_gt].
      apply land_one_origin in H1; [| now apply binary_lor].
      destruct Xc as [Ec | Ec]; [| now left].
      right. rewrite Ec, Z.lor_0_l in H1. exact H1.
    + change (Z.b2z false) with 0. rewrite Z.land_0_r. discriminate.
  - destruct (draw_act r i j k <? cell (P_act s) i j k) eqn:E.
    + intros _. left. now apply Z.ltb_lt.
    + change (Z.b2z false) with 0. rewrite Z.lor_0_r. intros H1. right.
      destruct (neighbour_activation (act s) (width s) (depth s)
                                     (height s) i j k);
        destruct Xa as [Ea | Ea], Xh as [Eh | Eh];
        rewrite Ea, Eh in H1; try discriminate H1; auto.
Qed.

Lemma no_cloud_from_nothing_witness :
  wf seeded /\
  cell (act (step (const_draws 9 9 9) seeded)) 3 1 1 = 1 /\
  cell (act seeded) 3 1 1 = 0 /\ cell (hum seeded) 3 1 1 = 1 /\
  neighbour_activation (act seeded) 4 3 5 3 1 1 = true.
Proof.
  destruct binary_seeded as (Bh & Ba & Bc).
  split; [exact wf_seeded |]. split; [reflexivity |].
  destruct (no_cloud_from_nothing seeded (const_draws 9 9 9) 3 1 1
              wf_seeded Bh Ba Bc) as (_ & H2); [simpl; lia .. |].
  destruct (H2 eq_refl) as [Hlt | Hn]; [cbv in Hlt; discriminate | exact Hn].
Defined.

(** ** Activation spreads to the neighbours *)

Lemma mod_shift_sub (W i p o : Z) :
  0 <= i < W -> 0 <= p < W ->
  ((i - o) mod W = p <-> i = (p + o) mod W).
Proof.
  intros Hi Hp. split; intros E.
  - rewrite <- E, Zplus_mod_idemp_l.
    replace (i - o + o) with i by lia. symmetry. now apply Z.mod_small.
  - rewrite E, Zminus_mod_idemp_l.
    replace (p + o - o) with p by lia. now apply Z.mod_small.
Qed.

Lemma mod_shift_add (W i p o : Z) :
  0 <= i < W -> 0 <= p < W ->
  ((i + o) mod W = p <-> i = (p - o) mod W).
Proof.
  intros Hi Hp. split; intros E.
  - rewrite <- E, Zminus_mod_idemp_l.
    replace (i + o - o) with i by lia. symmetry. now apply Z.mod_small.
  - rewrite E, Zplus_mod_idemp_l.
    replace (p - o + o) with p by lia. now apply Z.mod_small.
Qed.

Lemma growth_act_one (a h : Z) (nb : bool) :
  a = 0 \/ a = 1 -> h = 1 ->
  (Z.land (Z.land (inv8 a) h) (Z.b2z nb) = 1 <-> a = 0 /\ nb = true).
Proof.
  intros [-> | ->] ->; destruct nb; simpl; split; intros H;
    try discriminate; auto; destruct H; discriminate.
Qed.

(** X7.  How activation spreads from a single active cell: when exactly
    one cell [(pi, pj, pk)] is active, a humid cell is active after the
    growth phase if and only if it is another cell and lies, modulo the
    axis lengths, at +2, +1, -1 or -2 from it along axis 1, at +2, +1 or
    -1 (not -2) along axis 2, or at +2, +1, -1 or -2 along axis 3. *)
Theorem growth_spreads_from_one_cell (s : CAclouds3D)
        (pi pj pk i j k : Z) :
  wf s -> binary (act s) ->
  0 <= pi < width s -> 0 <= pj < depth s -> 0 <= pk < height s ->
  0 <= i < width s -> 0 <= j < depth s -> 0 <= k < height s ->
  (forall a b c,
      0 <= a < width s -> 0 <= b < depth s -> 0 <= c < height s ->
      (cell (act s) a b c = 1 <-> a = pi /\ b = pj /\ c = pk)) ->
  cell (hum s) i j k = 1 ->
  (cell (act (cloud_growth s)) i j k = 1 <->
   ~ (i = pi /\ j = pj /\ k = pk) /\
   ((j = pj /\ k = pk /\
     (i = (pi + 2) mod width s \/ i = (pi + 1) mod width s \/
      i = (pi - 1) mod width s \/ i = (pi - 2) mod width s)) \/
    (i = pi /\ k = pk /\
     (j = (pj + 2) mod depth s \/ j = (pj + 1) mod depth s \/
      j = (pj - 1) mod depth s)) \/
    (i = pi /\ j = pj /\
     (k = (pk + 2) mod height s \/ k = (pk + 1) mod height s \/
      k = (pk - 1) mod height s \/ k = (pk - 2) mod height s)))).
Proof.
  intros Hwf Ba Hpi Hpj Hpk Hi Hj Hk Hone Hh.
  destruct (@cloud_growth_cells s i j k Hwf Hi Hj Hk) as (_ & Ga & _).
  rewrite (@neighbour_bits_b2z (act s) (width s) (depth s) (height s)
             i j k Ba) in Ga.
  rewrite Ga.
  rewrite (growth_act_one _ _ _ (@binary_cell (act s) i j k Ba) Hh).
  assert (A0 : cell (act s) i j k = 0 <-> ~ (i = pi /\ j = pj /\ k = pk)).
  { rewrite <- (Hone i j k Hi Hj Hk).
    destruct (@binary_cell (act s) i j k Ba) as [E | E]; rewrite E;
      split; intros; try discriminate; auto. now contradict H. }
  rewrite A0.
  assert (Hit : forall a b c,
             0 <= a < width s -> 0 <= b < depth s -> 0 <= c < height s ->
             (bit (cell (act s) a b c) = true
              <-> a = pi /\ b = pj /\ c = pk)).
  { intros a b c Ha Hb Hc. unfold bit. rewrite Z.eqb_eq. now apply Hone. }
  unfold neighbour_activation. rewrite !orb_true_iff.
  assert (Mw : forall o, 0 <= (i + o) mod width s < width s)
    by (intros; apply Z.mod_pos_bound; lia).
  assert (Md : forall o, 0 <= (j + o) mod depth s < depth s)
    by (intros; apply Z.mod_pos_bound; lia).
  assert (Mh : forall o, 0 <= (k + o) mod height s < height s)
    by (intros; apply Z.mod_pos_bound; lia).
  rewrite !Hit by (assumption || apply Mw || apply Md || apply Mh).
  rewrite !(mod_shift_sub (width s) i pi) by assumption.
  rewrite !(mod_shift_add (width s) i pi) by assumption.
  rewrite !(mod_shift_sub (depth s) j pj) by assumption.
  rewrite !(mod_shift_add (depth s) j pj) by assumption.
  rewrite !(mod_shift_sub (height s) k pk) by assumption.
  rewrite !(mod_shift_add (height s) k pk) by assumption.
  tauto.
Qed.

Lemma growth_spreads_from_one_cell_witness :
  wf seeded /\ cell (hum seeded) 1 0 1 = 1 /\
  0 = (1 + 2) mod depth seeded /\
  cell (act (cloud_growth seeded)) 1 0 1 = 1.
Proof.
  split; [exact wf_seeded |]. split; [reflexivity |].
  split; [reflexivity |].
  apply (growth_spreads_from_one_cell seeded 1 1 1 1 0 1 wf_seeded
           (proj1 (proj2 binary_seeded))); try (simpl; lia).
  - intros a b c Ha Hb Hc. simpl in Ha, Hb, Hc.
    assert (Ea : a = 0 \/ a = 1 \/ a = 2 \/ a = 3) by lia.
    assert (Eb : b = 0 \/ b = 1 \/ b = 2) by lia.
    assert (Ec : c = 0 \/ c = 1 \/ c = 2 \/ c = 3 \/ c = 4) by lia.
    destruct Ea as [-> | [-> | [-> | ->]]];
      destruct Eb as [-> | [-> | ->]];
      destruct Ec as [-> | [-> | [-> | [-> | ->]]]];
      split; intros H;
      try (cbv in H; discriminate H); try reflexivity;
      try (destruct H as (H1 & H2 & H3); discriminate);
      auto.
  - reflexivity.
  - split; [intros (_ & H & _); discriminate |].
    right. left. repeat split. left. reflexivity.
Defined.

(** ** The list of cloud positions *)

Lemma NoDup_flat_map {A B : Type} (h : A -> list B) (l : list A) :
  NoDup l ->
  (forall a, In a l -> NoDup (h a)) ->
  (forall a b v, In a l -> In b l -> In v (h a) -> In v (h b) -> a = b) ->
  NoDup (flat_map h l).
Proof.
  intros Hl; induction Hl as [|a l Ha Hl IH]; intros Hn Hd; simpl;
    [constructor |].
  apply NoDup_app.
  - apply Hn. now left.
  - apply IH.
    + intros b Hb. apply Hn. now right.
    + intros b c v Hb Hc. apply Hd; now right.
  - intros v Hv Hin. apply in_flat_map in Hin.
    destruct Hin as (b & Hb & Hvb).
    assert (a = b) by (apply (Hd a b v); auto; [now left | now right]).
    subst b. contradiction.
Qed.

Lemma NoDup_arange (n : Z) : NoDup (arange 0 n).
Proof.
  unfold arange. apply NoDup_map_NoDup_ForallPairs; [| apply seq_NoDup].
  intros u v _ _ E. lia.
Qed.

Lemma NoDup_indices (W D H : Z) : NoDup (indices W D H).
Proof.
  unfold indices. apply NoDup_flat_map; [apply NoDup_arange | |].
  - intros i _. apply NoDup_flat_map; [apply NoDup_arange | |].
    + intros j _. apply NoDup_map_NoDup_ForallPairs; [| apply NoDup_arange].
      intros u v _ _ E. now injection E.
    + intros j j' v _ _ Hv Hv'.
      apply in_map_iff in Hv. destruct Hv as (k & <- & _).
      apply in_map_iff in Hv'. destruct Hv' as (k' & E & _).
      now injection E.
  - intros i i' v _ _ Hv Hv'.
    apply in_flat_map in Hv. destruct Hv as (j & _ & Hv).
    apply in_map_iff in Hv. destruct Hv as (k & <- & _).
    apply in_flat_map in Hv'. destruct Hv' as (j' & _ & Hv').
    apply in_map_iff in Hv'. destruct Hv' as (k' & E & _).
    now injection E.
Qed.

(** X8.  [get_cloud_positions] returns every cloud cell once: the rows it
    returns are pairwise different and their number is the number of
    cells of [cld] that hold 1. *)
Theorem cloud_positions_count (s : CAclouds3D) :
  wf s ->
  length (get_cloud_positions s) = count_set (cld s) /\
  NoDup (get_cloud_positions s).
Proof.
  intros Hwf. rewrite (get_cloud_positions_rows s Hwf). split.
  - rewrite length_map. unfold count_set.
    destruct Hwf as [_ _ _ _ _ Wcld _ _ _ _ _ _].
    rewrite (flatten_cells _ _ _ _ Wcld), filter_map_swap.
    now rewrite length_map.
  - apply NoDup_map_NoDup_ForallPairs.
    + intros [[a b] c] [[a' b'] c'] _ _ E. simpl in E.
      injection E as -> -> ->. reflexivity.
    + apply NoDup_filter, NoDup_indices.
Qed.

Lemma cloud_positions_count_witness :
  wf corners /\ count_set (cld corners) = 2%nat /\
  length (get_cloud_positions corners) = 2%nat.
Proof.
  split; [exact wf_corners |]. split; [reflexivity |].
  exact (proj1 (cloud_positions_count corners wf_corners)).
Defined.

(** ** The probability grids *)

Lemma clamp_P_range (p : Z) : 0 <= clamp_P p <= 10000.
Proof. unfold clamp_P. lia. Qed.

Lemma masked_fill_all (P : Z -> Prop) (t : tensor Z) (m : tensor bool)
      (v : Z) :
  P v -> Forall (Forall (Forall P)) t ->
  Forall (Forall (Forall P)) (masked_fill t m v).
Proof.
  intros Hv Ht. unfold masked_fill.
  apply (@all_zip3 Z bool Z P (fun _ => True) P).
  - intros u b Hu _. now destruct b.
  - exact Ht.
  - apply all_top.
Qed.

Lemma reachable_probabilities (s : CAclouds3D) :
  reachable s ->
  match P_hum s with
  | PTensor t => Forall (Forall (Forall (fun c => 0 <= c <= 10000))) t
  | PScalar v => 0 <= v <= 10000
  end /\
  Forall (Forall (Forall (fun c => 0 <= c <= 10000))) (P_act s) /\
  Forall (Forall (Forall (fun c => 0 <= c <= 10000))) (P_ext s).
Proof.
  induction 1 as [w d h s E | F ops c_x c_y c_z f_x f_y f_z ph pa pe rad ov
                              s Hs IH | r s Hs IH].
  - unfold init in E.
    destruct ((w <? 0) || (d <? 0) || (h <? 0)); [discriminate |].
    injection E as <-. simpl.
    assert (L : Forall (Forall (Forall (fun c => 0 <= c <= 10000)))
                       (zeros_like (zeros w d h))).
    { apply (@all_map3 Z Z (fun _ => True)); [intros; lia | apply all_top]. }
    auto.
  - rewrite init_elliptic_state. simpl. destruct IH as (_ & Ia & Ie).
    split; [apply clamp_P_range |].
    split; apply masked_fill_all; auto using clamp_P_range.
  - exact IH.
Qed.

(** X9.  The probability grids stay in basis points: in every state
    reached from the constructor, [P_hum], [P_act] and [P_ext] lie between
    0 and 10000 at every cell. *)
Theorem probabilities_in_range (s : CAclouds3D) (i j k : Z) :
  reachable s ->
  0 <= prob_at (P_hum s) i j k <= 10000 /\
  0 <= cell (P_act s) i j k <= 10000 /\
  0 <= cell (P_ext s) i j k <= 10000.
Proof.
  intros Hs. destruct (reachable_probabilities s Hs) as (Ih & Ia & Ie).
  split; [| split].
  - destruct (P_hum s) as [t | v]; simpl; [| exact Ih].
    unfold cell. apply (@all_get3 Z (fun c => 0 <= c <= 10000)); [auto | lia].
  - unfold cell. apply (@all_get3 Z (fun c => 0 <= c <= 10000)); [auto | lia].
  - unfold cell. apply (@all_get3 Z (fun c => 0 <= c <= 10000)); [auto | lia].
Qed.

Lemma probabilities_in_range_witness :
  reachable (fst (init_elliptic_probabilities (ops := Q_FloatOps)
                    1 0 0 1%Q 1%Q 1%Q 99999 (-5) 20000 1%Q 0%Q wide)) /\
  cell (P_ext (fst (init_elliptic_probabilities (ops := Q_FloatOps)
                      1 0 0 1%Q 1%Q 1%Q 99999 (-5) 20000 1%Q 0%Q wide)))
       3 0 0 = 10000 /\
  0 <= cell (P_ext (fst (init_elliptic_probabilities (ops := Q_FloatOps)
                           1 0 0 1%Q 1%Q 1%Q 99999 (-5) 20000 1%Q 0%Q
                           wide))) 3 0 0 <= 10000.
Proof.
  assert (R : reachable
                (fst (init_elliptic_probabilities (ops := Q_FloatOps)
                        1 0 0 1%Q 1%Q 1%Q 99999 (-5) 20000 1%Q 0%Q wide))).
  { apply reach_elliptic. apply (@reach_init 4 2 2). reflexivity. }
  split; [exact R |]. split; [reflexivity |].
  exact (proj2 (proj2 (probabilities_in_range _ 3 0 0 R))).
Defined.

(** ** The checks of the center *)

(** X10.  When the width is the smallest dimension the checked center
    lies inside the grid on every axis, and a center whose coordinates are
    all below the width is kept without a message; on a grid whose three
    dimensions are equal each check is the clamp into [0, dim - 1]. *)
Theorem center_inside_when_width_smallest (s : CAclouds3D)
        (c_x c_y c_z : Z) :
  0 < width s -> width s <= depth s -> width s <= height s ->
  (0 <= fst (check_c_x s c_x) < width s /\
   0 <= fst (check_c_y s c_y) < depth s /\
   0 <= fst (check_c_z s c_z) < height s) /\
  (0 <= c_x < width s -> check_c_x s c_x = (c_x, [])) /\
  (0 <= c_y < width s -> check_c_y s c_y = (c_y, [])) /\
  (0 <= c_z < width s -> check_c_z s c_z = (c_z, [])) /\
  (depth s = width s -> height s = width s ->
   fst (check_c_x s c_x) = Z.max 0 (Z.min (width s - 1) c_x) /\
   fst (check_c_y s c_y) = Z.max 0 (Z.min (depth s - 1) c_y) /\
   fst (check_c_z s c_z) = Z.max 0 (Z.min (height s - 1) c_z)).
Proof.
  intros Hw Hd Hh. unfold check_c_x, check_c_y, check_c_z.
  destruct (c_x <? 0) eqn:X1; destruct (c_x >=? width s) eqn:X2;
    destruct (c_y <? 0) eqn:Y1; destruct (c_y >=? width s) eqn:Y2;
    destruct (c_z <? 0) eqn:Z1; destruct (c_z >=? width s) eqn:Z2;
    rewrite ?Z.ltb_lt, ?Z.ltb_ge, ?Z.geb_leb, ?Z.leb_le, ?Z.leb_gt in *;
    simpl; repeat split; intros; try reflexivity; try lia.
Qed.

Lemma center_inside_when_width_smallest_witness :
  (0 < width deep /\ width deep <= depth deep /\
   width deep <= height deep) /\
  0 <= fst (check_c_y deep 7) < depth deep.
Proof.
  split; [simpl; lia |].
  apply (center_inside_when_width_smallest deep 0 7 0); simpl; lia.
Defined.

(** ** The messages of the seeding *)

Section Messages.

Context {F : Type} {ops : FloatOps F}.
Variables (c_x c_y c_z : Z) (f_x f_y f_z : F) (ph pa pe : Z)
          (radius overlap : F) (s : CAclouds3D).

(** What [init_elliptic_probabilities] prints: the messages of the nine
    checks, in the order of the source. *)
Lemma init_elliptic_output :
  snd (init_elliptic_probabilities
         c_x c_y c_z f_x f_y f_z ph pa pe radius overlap s)
  = snd (check_c_x s c_x) ++ snd (check_c_y s c_y)
    ++ snd (check_c_z s c_z)
    ++ snd (check_f AxX f_x) ++ snd (check_f AxY f_y)
    ++ snd (check_f AxZ f_z)
    ++ snd (check_P FHum ph) ++ snd (check_P FAct pa)
    ++ snd (check_P FExt pe).
Proof.
  unfold init_elliptic_probabilities.
  repeat (rewrite snd_bind; cbv beta).
  simpl snd at 10. now rewrite app_nil_r.
Qed.

Lemma check_c_x_output (c : Z) : (length (snd (check_c_x s c)) <= 1)%nat.
Proof.
  unfold check_c_x.
  destruct (c <? 0); [simpl; lia |]. destruct (c >=? width s); simpl; lia.
Qed.

Lemma check_c_y_output (c : Z) : (length (snd (check_c_y s c)) <= 1)%nat.
Proof.
  unfold check_c_y.
  destruct (c <? 0); [simpl; lia |]. destruct (c >=? width s); simpl; lia.
Qed.

Lemma check_c_z_output (c : Z) : (length (snd (check_c_z s c)) <= 1)%nat.
Proof.
  unfold check_c_z.
  destruct (c <? 0); [simpl; lia |]. destruct (c >=? width s); simpl; lia.
Qed.

Lemma check_f_output (a : axis) (f : F) :
  (length (snd (check_f a f)) <= 1)%nat.
Proof. unfold check_f. destruct (f_leb f f_zero); simpl; lia. Qed.

Lemma check_P_output (fd : field) (p : Z) :
  (length (snd (check_P fd p)) <= 1)%nat.
Proof.
  unfold check_P.
  destruct (p <? 0); [simpl; lia |]. destruct (p >? 10000); simpl; lia.
Qed.

End Messages.

(** X11.  [init_elliptic_probabilities] prints at most nine messages, one
    per checked argument (a negative overlap is reset silently); it prints
    none, and uses the probabilities as given, when the three center
    coordinates are in [0, width - 1], the stretch factors are not <= 0
    and the probabilities are in [0, 10000]. *)
Theorem seeding_messages (F : Type) (ops : FloatOps F)
        (c_x c_y c_z : Z) (f_x f_y f_z : F) (ph pa pe : Z)
        (radius overlap : F) (s : CAclouds3D) :
  (length (snd (init_elliptic_probabilities
                  c_x c_y c_z f_x f_y f_z ph pa pe radius overlap s))
   <= 9)%nat /\
  (0 <= c_x < width s -> 0 <= c_y < width s -> 0 <= c_z < width s ->
   f_leb f_x f_zero = false -> f_leb f_y f_zero = false ->
   f_leb f_z f_zero = false ->
   0 <= ph <= 10000 -> 0 <= pa <= 10000 -> 0 <= pe <= 10000 ->
   snd (init_elliptic_probabilities
          c_x c_y c_z f_x f_y f_z ph pa pe radius overlap s) = [] /\
   (clamp_P ph, clamp_P pa, clamp_P pe) = (ph, pa, pe)).
Proof.
  rewrite init_elliptic_output. split.
  - rewrite !length_app.
    pose proof (check_c_x_output s c_x).
    pose proof (check_c_y_output s c_y).
    pose proof (check_c_z_output s c_z).
    pose proof (check_f_output AxX f_x).
    pose proof (check_f_output AxY f_y).
    pose proof (check_f_output AxZ f_z).
    pose proof (check_P_output FHum ph).
    pose proof (check_P_output FAct pa).
    pose proof (check_P_output FExt pe).
    lia.
  - intros Hx Hy Hz Fx Fy Fz Hh Ha He.
    unfold check_c_x, check_c_y, check_c_z, check_f, check_P, clamp_P.
    rewrite Fx, Fy, Fz.
    replace (c_x <? 0) with false by (symmetry; apply Z.ltb_ge; lia).
    replace (c_y <? 0) with false by (symmetry; apply Z.ltb_ge; lia).
    replace (c_z <? 0) with false by (symmetry; apply Z.ltb_ge; lia).
    replace (c_x >=? width s) with false
      by (symmetry; rewrite Z.geb_leb; apply Z.leb_gt; lia).
    replace (c_y >=? width s) with false
      by (symmetry; rewrite Z.geb_leb; apply Z.leb_gt; lia).
    replace (c_z >=? width s) with false
      by (symmetry; rewrite Z.geb_leb; apply Z.leb_gt; lia).
    replace (ph <? 0) with false by (symmetry; apply Z.ltb_ge; lia).
    replace (pa <? 0) with false by (symmetry; apply Z.ltb_ge; lia).
    replace (pe <? 0) with false by (symmetry; apply Z.ltb_ge; lia).
    replace (ph >? 10000) with false
      by (symmetry; rewrite Z.gtb_ltb; apply Z.ltb_ge; lia).
    replace (pa >? 10000) with false
      by (symmetry; rewrite Z.gtb_ltb; apply Z.ltb_ge; lia).
    replace (pe >? 10000) with false
      by (symmetry; rewrite Z.gtb_ltb; apply Z.ltb_ge; lia).
    simpl. split; [reflexivity |].
    repeat f_equal; lia.
Qed.

Lemma seeding_messages_witness :
  (0 <= 1 < width wide) /\
  snd (init_elliptic_probabilities (ops := Q_FloatOps)
         1 1 1 5%Q 5%Q 1%Q 100 1 500 10%Q (-1)%Q wide) = [].
Proof.
  split; [simpl; lia |].
  apply (proj2 (seeding_messages Q Q_FloatOps 1 1 1 5%Q 5%Q 1%Q 100 1 500
                  10%Q (-1)%Q wide)); simpl; try lia; reflexivity.
Defined.

(** ** Seeding twice *)

Lemma map2_override {A B : Type} (g g' : A -> B -> A) (a : list A)
      (b : list B) :
  (forall u v, g' (g u v) v = g' u v) ->
  map2 g' (map2 g a b) b = map2 g' a b.
Proof.
  intros Hg. revert b; induction a as [|u a IH]; intros [|v b]; simpl;
    try reflexivity.
  now rewrite Hg, IH.
Qed.

Lemma masked_fill_override (t : tensor Z) (m : tensor bool) (v v' : Z) :
  masked_fill (masked_fill t m v) m v' = masked_fill t m v'.
Proof.
  unfold masked_fill, zip3.
  apply map2_override. intros p q.
  apply map2_override. intros r r'.
  apply map2_override. intros u b. now destruct b.
Qed.

(** X12.  A second seeding with the same center, stretch, radius and
    overlap replaces the first one: the state is the one the second call
    alone would leave, whatever probabilities the first call was given;
    in particular seeding twice with the same arguments is seeding once. *)
Theorem seeding_again_replaces (F : Type) (ops : FloatOps F)
        (c_x c_y c_z : Z) (f_x f_y f_z : F) (ph pa pe ph' pa' pe' : Z)
        (radius overlap : F) (s : CAclouds3D) :
  fst (init_elliptic_probabilities
         c_x c_y c_z f_x f_y f_z ph' pa' pe' radius overlap
         (fst (init_elliptic_probabilities
                 c_x c_y c_z f_x f_y f_z ph pa pe radius overlap s)))
  = fst (init_elliptic_probabilities
           c_x c_y c_z f_x f_y f_z ph' pa' pe' radius overlap s).
Proof.
  rewrite (@init_elliptic_state F ops c_x c_y c_z f_x f_y f_z ph' pa' pe'
             radius overlap
             (fst (init_elliptic_probabilities
                     c_x c_y c_z f_x f_y f_z ph pa pe radius overlap s))).
  rewrite !init_elliptic_state. cbv zeta.
  unfold set_P, distance, check_c_x, check_c_y, check_c_z. simpl.
  now rewrite !masked_fill_override.
Qed.

(* ================================================================== *)
(** * The export script *)

(** ** Columns, slices and the bounding box *)

Lemma fold_min_spec (l : list Z) (a : Z) :
  (fold_left Z.min l a = a \/ In (fold_left Z.min l a) l) /\
  fold_left Z.min l a <= a /\
  (forall v, In v l -> fold_left Z.min l a <= v).
Proof.
  revert a; induction l as [|u l IH]; intros a; simpl.
  - split; [now left |]. split; [lia | intros v []].
  - destruct (IH (Z.min a u)) as (Hin & Hle & Hall).
    split; [| split].
    + destruct Hin as [E | Hin]; [| right; right; exact Hin].
      destruct (Z.min_spec a u) as [(_ & Em) | (_ & Em)];
        [left | right; left]; rewrite E; auto.
    + lia.
    + intros v [<- | Hv]; [lia | now apply Hall].
Qed.

Lemma fold_max_spec (l : list Z) (a : Z) :
  (fold_left Z.max l a = a \/ In (fold_left Z.max l a) l) /\
  a <= fold_left Z.max l a /\
  (forall v, In v l -> v <= fold_left Z.max l a).
Proof.
  revert a; induction l as [|u l IH]; intros a; simpl.
  - split; [now left |]. split; [lia | intros v []].
  - destruct (IH (Z.max a u)) as (Hin & Hle & Hall).
    split; [| split].
    + destruct Hin as [E | Hin]; [| right; right; exact Hin].
      destruct (Z.max_spec a u) as [(_ & Em) | (_ & Em)];
        [right; left | left]; rewrite E; auto.
    + lia.
    + intros v [<- | Hv]; [lia | now apply Hall].
Qed.

Lemma column_min_spec (l : list Z) (m : Z) :
  column_min l = Some m -> In m l /\ (forall v, In v l -> m <= v).
Proof.
  destruct l as [|a l]; [discriminate |]. simpl. intros E.
  injection E as <-. destruct (fold_min_spec l a) as (Hin & Hle & Hall).
  split.
  - destruct Hin as [-> | Hin]; [now left | now right].
  - intros v [<- | Hv]; [exact Hle | now apply Hall].
Qed.

Lemma column_max_spec (l : list Z) (m : Z) :
  column_max l = Some m -> In m l /\ (forall v, In v l -> v <= m).
Proof.
  destruct l as [|a l]; [discriminate |]. simpl. intros E.
  injection E as <-. destruct (fold_max_spec l a) as (Hin & Hle & Hall).
  split.
  - destruct Hin as [-> | Hin]; [now left | now right].
  - intros v [<- | Hv]; [exact Hle | now apply Hall].
Qed.

Lemma bounding_box_none (cs : list (Z * Z * Z)) :
  bounding_box cs = None <-> cs = [].
Proof.
  split; [| intros ->; reflexivity].
  destruct cs as [|p cs]; [reflexivity | discriminate].
Qed.

Lemma bounding_box_spec (cs : list (Z * Z * Z)) (b : box) :
  bounding_box cs = Some b ->
  (forall i j k,
      In (i, j, k) cs ->
      x_min b <= i <= x_max b /\ y_min b <= j <= y_max b /\
      z_min b <= k <= z_max b) /\
  (exists j k, In (x_min b, j, k) cs) /\
  (exists j k, In (x_max b, j, k) cs) /\
  (exists i k, In (i, y_min b, k) cs) /\
  (exists i k, In (i, y_max b, k) cs) /\
  (exists i j, In (i, j, z_min b) cs) /\
  (exists i j, In (i, j, z_max b) cs).
Proof.
  unfold bounding_box.
  destruct (column_min (map (fun p => fst (fst p)) cs)) as [a |] eqn:E1;
    [| discriminate].
  destruct (column_min (map (fun p => snd (fst p)) cs)) as [b1 |] eqn:E2;
    [| discriminate].
  destruct (column_min (map (fun p => snd p) cs)) as [c |] eqn:E3;
    [| discriminate].
  destruct (column_max (map (fun p => fst (fst p)) cs)) as [a' |] eqn:E4;
    [| discriminate].
  destruct (column_max (map (fun p => snd (fst p)) cs)) as [b' |] eqn:E5;
    [| discriminate].
  destruct (column_max (map (fun p => snd p) cs)) as [c' |] eqn:E6;
    [| discriminate].
  intros E. injection E as <-. simpl.
  apply column_min_spec in E1, E2, E3. apply column_max_spec in E4, E5, E6.
  destruct E1 as (I1 & L1), E2 as (I2 & L2), E3 as (I3 & L3),
           E4 as (I4 & L4), E5 as (I5 & L5), E6 as (I6 & L6).
  split.
  - intros i j k Hin.
    pose proof (in_map (fun p => fst (fst p)) cs _ Hin) as Hx.
    pose proof (in_map (fun p => snd (fst p)) cs _ Hin) as Hy.
    pose proof (in_map (fun p => snd p) cs _ Hin) as Hz.
    simpl in Hx, Hy, Hz.
    pose proof (L1 _ Hx). pose proof (L4 _ Hx).
    pose proof (L2 _ Hy). pose proof (L5 _ Hy).
    pose proof (L3 _ Hz). pose proof (L6 _ Hz). lia.
  - apply in_map_iff in I1, I2, I3, I4, I5, I6.
    destruct I1 as ([[i1 j1] k1] & <- & H1).
    destruct I2 as ([[i2 j2] k2] & <- & H2).
    destruct I3 as ([[i3 j3] k3] & <- & H3).
    destruct I4 as ([[i4 j4] k4] & <- & H4).
    destruct I5 as ([[i5 j5] k5] & <- & H5).
    destruct I6 as ([[i6 j6] k6] & <- & H6).
    simpl. repeat split; eauto.
Qed.

Lemma argwhere_In (W D H : Z) (t : tensor Z) (i j k : Z) :
  In (i, j, k) (argwhere W D H t)
  <-> (0 <= i < W /\ 0 <= j < D /\ 0 <= k < H) /\ cell t i j k <> 0.
Proof.
  unfold argwhere. rewrite filter_In, indices_In. simpl.
  rewrite negb_true_iff, Z.eqb_neq. tauto.
Qed.

Lemma fresh_simulate_zero (w d h : Z) (s : CAclouds3D)
      (rng : nat -> draws) (n : nat) :
  init w d h = Ok s ->
  (forall q, draws_in_range (rng q)) ->
  Forall (Forall (Forall (fun c => c = 0))) (cld (simulate rng n s)).
Proof.
  intros E Hr. unfold init in E.
  destruct ((w <? 0) || (d <? 0) || (h <? 0)); [discriminate |].
  injection E as <-.
  assert (L : Forall (Forall (Forall (fun c => c = 0)))
                     (zeros_like (zeros w d h))).
  { apply (@all_map3 Z Z (fun _ => True)); [auto | apply all_top]. }
  apply zero_fields_simulate_from; simpl; auto using zero_zeros.
Qed.

(** X13.  The export stops with an error exactly when the cloud field has
    no non-zero cell; so it does for an engine that was never seeded,
    whatever the number of simulated steps. *)
Theorem export_fails_iff_no_cloud (s : CAclouds3D) :
  (export_volume s = None <->
   forall i j k,
     0 <= i < width s -> 0 <= j < depth s -> 0 <= k < height s ->
     cell (cld s) i j k = 0) /\
  (forall w d h rng n,
      init w d h = Ok s ->
      (forall q, draws_in_range (rng q)) ->
      export_volume (simulate rng n s) = None).
Proof.
  assert (Main : forall s',
             export_volume s' = None <->
             forall i j k,
               0 <= i < width s' -> 0 <= j < depth s' ->
               0 <= k < height s' -> cell (cld s') i j k = 0).
  { intros s'. unfold export_volume.
    destruct (bounding_box
                (argwhere (width s') (depth s') (height s') (cld s')))
      as [b |] eqn:E.
    - split; [discriminate |]. intros Hz. exfalso.
      destruct (bounding_box_spec _ b E) as (_ & (j & k & Hin) & _).
      apply argwhere_In in Hin. destruct Hin as ((Hi & Hj & Hk) & Hn).
      apply Hn. now apply Hz.
    - apply bounding_box_none in E. split; [| reflexivity].
      intros _ i j k Hi Hj Hk.
      destruct (Z.eq_dec (cell (cld s') i j k) 0) as [E0 | N0];
        [exact E0 |].
      assert (Hin : In (i, j, k)
                       (argwhere (width s') (depth s') (height s')
                                 (cld s')))
        by (apply argwhere_In; tauto).
      rewrite E in Hin. destruct Hin. }
  split; [apply Main |].
  intros w d h rng n E Hr. apply Main. intros i j k _ _ _.
  pose proof (fresh_simulate_zero w d h s rng n E Hr) as Zc.
  unfold cell. now apply (@all_get3 Z (fun c => c = 0)).
Qed.

Lemma export_fails_iff_no_cloud_witness :
  init 4 2 2 = Ok wide /\
  export_volume (simulate (fun _ => const_draws 7 7 7) 2 wide) = None.
Proof.
  split; [reflexivity |].
  apply (proj2 (export_fails_iff_no_cloud wide) 4 2 2
               (fun _ => const_draws 7 7 7) 2%nat eq_refl).
  intros _. unfold draws_in_range, in_range; simpl. repeat split; lia.
Defined.

(** X14.  The bounding box of the export encloses the cloud tightly: when
    the cloud field has a non-zero cell the export returns the crop to a
    box that lies inside the grid, contains every non-zero cell, and has a
    non-zero cell on each of its six faces. *)
Theorem bounding_box_encloses (s : CAclouds3D) (b : box) :
  bounding_box (argwhere (width s) (depth s) (height s) (cld s)) = Some b ->
  export_volume s = Some (crop b (cld s)) /\
  (0 <= x_min b <= x_max b /\ x_max b < width s /\
   0 <= y_min b <= y_max b /\ y_max b < depth s /\
   0 <= z_min b <= z_max b /\ z_max b < height s) /\
  (forall i j k,
      0 <= i < width s -> 0 <= j < depth s -> 0 <= k < height s ->
      cell (cld s) i j k <> 0 ->
      x_min b <= i <= x_max b /\ y_min b <= j <= y_max b /\
      z_min b <= k <= z_max b) /\
  ((exists j k, cell (cld s) (x_min b) j k <> 0) /\
   (exists j k, cell (cld s) (x_max b) j k <> 0) /\
   (exists i k, cell (cld s) i (y_min b) k <> 0) /\
   (exists i k, cell (cld s) i (y_max b) k <> 0) /\
   (exists i j, cell (cld s) i j (z_min b) <> 0) /\
   (exists i j, cell (cld s) i j (z_max b) <> 0)).
Proof.
  intros E.
  destruct (bounding_box_spec _ b E)
    as (Hall & (j1 & k1 & H1) & (j2 & k2 & H2) & (i3 & k3 & H3)
        & (i4 & k4 & H4) & (i5 & j5 & H5) & (i6 & j6 & H6)).
  pose proof (Hall _ _ _ H1) as B1. pose proof (Hall _ _ _ H3) as B3.
  pose proof (Hall _ _ _ H5) as B5.
  apply argwhere_In in H1, H2, H3, H4, H5, H6.
  split; [unfold export_volume; now rewrite E |].
  split; [lia |]. split.
  - intros i j k Hi Hj Hk Hn. apply Hall. apply argwhere_In. tauto.
  - repeat split; eexists; eexists;
      [apply H1 | apply H2 | apply H3 | apply H4 | apply H5 | apply H6].
Qed.

Lemma wf_grown_seed : wf (cloud_growth seeded).
Proof. exact (@wf_cloud_growth seeded wf_seeded). Qed.

Lemma bounding_box_encloses_witness :
  bounding_box (argwhere 4 3 5 (cld (cloud_growth seeded)))
  = Some (mkBox 1 1 1 1 1 1) /\
  export_volume (cloud_growth seeded) = Some [[[1]]].
Proof.
  split; [reflexivity |].
  exact (proj1 (bounding_box_encloses (cloud_growth seeded)
                  (mkBox 1 1 1 1 1 1) eq_refl)).
Defined.

(** ** The crop *)

Lemma box_inside (s : CAclouds3D) (b : box) :
  bounding_box (argwhere (width s) (depth s) (height s) (cld s)) = Some b ->
  0 <= x_min b <= x_max b /\ x_max b < width s /\
  0 <= y_min b <= y_max b /\ y_max b < depth s /\
  0 <= z_min b <= z_max b /\ z_max b < height s.
Proof.
  intros E.
  destruct (bounding_box_spec _ b E)
    as (Hall & (j1 & k1 & H1) & (j2 & k2 & H2) & (i3 & k3 & H3)
        & (i4 & k4 & H4) & (i5 & j5 & H5) & (i6 & j6 & H6)).
  pose proof (Hall _ _ _ H1) as B1. pose proof (Hall _ _ _ H3) as B3.
  pose proof (Hall _ _ _ H5) as B5.
  apply argwhere_In in H1, H2, H3, H4, H5, H6. lia.
Qed.


Lemma slice_bound_id (n : nat) (a : Z) :
  0 <= a <= Z.of_nat n -> slice_bound n a = Z.to_nat a.
Proof.
  intros Ha. unfold slice_bound.
  replace (a <? 0) with false by (symmetry; apply Z.ltb_ge; lia).
  f_equal. lia.
Qed.

Lemma slice_length {A : Type} (l : list A) (a b : Z) :
  0 <= a <= b -> b <= Z.of_nat (length l) ->
  length (slice a b l) = Z.to_nat (b - a).
Proof.
  intros Ha Hb. unfold slice.
  rewrite !slice_bound_id by lia.
  rewrite length_firstn, length_skipn. lia.
Qed.

Lemma slice_nth {A : Type} (l : list A) (a b : Z) (i : nat) (d : A) :
  0 <= a <= b -> b <= Z.of_nat (length l) ->
  (i < Z.to_nat (b - a))%nat ->
  nth i (slice a b l) d = nth (Z.to_nat a + i) l d.
Proof.
  intros Ha Hb Hi. unfold slice.
  rewrite !slice_bound_id by lia.
  rewrite nth_firstn.
  replace (i <? Z.to_nat b - Z.to_nat a)%nat with true
    by (symmetry; apply Nat.ltb_lt; lia).
  apply nth_skipn.
Qed.

Lemma crop_cell (t : tensor Z) (w d h : nat) (b : box) (i j k : Z) :
  shaped w d h t ->
  0 <= x_min b <= x_max b -> x_max b < Z.of_nat w ->
  0 <= y_min b <= y_max b -> y_max b < Z.of_nat d ->
  0 <= z_min b <= z_max b -> z_max b < Z.of_nat h ->
  0 <= i <= x_max b - x_min b -> 0 <= j <= y_max b - y_min b ->
  0 <= k <= z_max b - z_min b ->
  cell (crop b t) i j k
  = cell t (x_min b + i) (y_min b + j) (z_min b + k).
Proof.
  intros Ht Hx Hx' Hy Hy' Hz Hz' Hi Hj Hk.
  assert (Lt : length t = w) by (destruct Ht; assumption).
  assert (Li : (Z.to_nat (x_min b + i) < w)%nat) by lia.
  assert (Lj : (Z.to_nat (y_min b + j) < d)%nat) by lia.
  pose proof (@shaped_plane Z w d h t _ Ht Li) as Lp.
  pose proof (@shaped_row Z w d h t _ _ Ht Li Lj) as Lr.
  unfold cell, get3, crop.
  rewrite (@map_nth_in _ _ (map (slice (z_min b) (z_max b + 1))) _
                       (Z.to_nat i) [] [])
    by (rewrite length_map, slice_length; lia).
  rewrite (@map_nth_in _ _ (slice (y_min b) (y_max b + 1)) _
                       (Z.to_nat i) [] [])
    by (rewrite slice_length; lia).
  rewrite slice_nth by lia.
  replace (Z.to_nat (x_min b) + Z.to_nat i)%nat
    with (Z.to_nat (x_min b + i)) by lia.
  rewrite (@map_nth_in _ _ _ _ _ [])
    by (rewrite slice_length; rewrite ?Lp; lia).
  rewrite (slice_nth (nth (Z.to_nat (x_min b + i)) t [])
                     (y_min b) (y_max b + 1))
    by (rewrite ?Lp; lia).
  replace (Z.to_nat (y_min b) + Z.to_nat j)%nat
    with (Z.to_nat (y_min b + j)) by lia.
  rewrite slice_nth by (rewrite ?Lr; lia).
  f_equal. lia.
Qed.

Lemma slice_Forall {A : Type} (P : A -> Prop) (l : list A) (a b : Z) :
  Forall P l -> Forall P (slice a b l).
Proof.
  intros H. unfold slice.
  generalize (slice_bound (length l) a), (slice_bound (length l) b).
  intros m n.
  assert (Hs : Forall P (skipn m l)).
  { rewrite <- (firstn_skipn m l) in H. now apply Forall_app in H. }
  rewrite <- (firstn_skipn (n - m) (skipn m l)) in Hs.
  now apply Forall_app in Hs.
Qed.

Lemma shaped_crop (t : tensor Z) (w d h : nat) (b : box) :
  shaped w d h t ->
  0 <= x_min b <= x_max b -> x_max b < Z.of_nat w ->
  0 <= y_min b <= y_max b -> y_max b < Z.of_nat d ->
  0 <= z_min b <= z_max b -> z_max b < Z.of_nat h ->
  shaped (Z.to_nat (x_max b + 1 - x_min b))
         (Z.to_nat (y_max b + 1 - y_min b))
         (Z.to_nat (z_max b + 1 - z_min b)) (crop b t).
Proof.
  intros (Lt & Ft) Hx Hx' Hy Hy' Hz Hz'. unfold crop. split.
  - rewrite !length_map. apply slice_length; lia.
  - rewrite map_map. apply Forall_map.
    apply (slice_Forall _ t (x_min b) (x_max b + 1)) in Ft.
    eapply Forall_impl; [| exact Ft]. simpl. intros p (Lp & Fp). split.
    + rewrite length_map. apply slice_length; lia.
    + apply Forall_map.
      apply (slice_Forall _ p (y_min b) (y_max b + 1)) in Fp.
      eapply Forall_impl; [| exact Fp]. simpl. intros r Lr.
      apply slice_length; lia.
Qed.

(** X15.  The exported volume is the cloud field shifted by the lower
    corner of the bounding box: it has the size of the box, and its cell
    [(i, j, k)] is the cell [(x_min + i, y_min + j, z_min + k)] of the
    cloud field. *)
Theorem crop_is_shifted_cloud (s : CAclouds3D) (b : box) (i j k : Z) :
  wf s ->
  bounding_box (argwhere (width s) (depth s) (height s) (cld s)) = Some b ->
  0 <= i <= x_max b - x_min b -> 0 <= j <= y_max b - y_min b ->
  0 <= k <= z_max b - z_min b ->
  shaped (Z.to_nat (x_max b + 1 - x_min b))
         (Z.to_nat (y_max b + 1 - y_min b))
         (Z.to_nat (z_max b + 1 - z_min b)) (crop b (cld s)) /\
  cell (crop b (cld s)) i j k
  = cell (cld s) (x_min b + i) (y_min b + j) (z_min b + k).
Proof.
  intros Hwf E Hi Hj Hk.
  assert (Hc : shaped (Z.to_nat (width s)) (Z.to_nat (depth s))
                      (Z.to_nat (height s)) (cld s))
    by (destruct Hwf; assumption).
  destruct (box_inside s b E) as (Hx & Hx' & Hy & Hy' & Hz & Hz').
  split.
  - apply (shaped_crop _ _ _ _ b Hc); lia.
  - apply (crop_cell _ _ _ _ b i j k Hc); lia.
Qed.

Lemma bit_not_zero (c : Z) : bit c = true -> c <> 0.
Proof. unfold bit. rewrite Z.eqb_eq. intros ->. discriminate. Qed.

(** X16.  Cropping loses no cloud: the exported volume holds as many
    cells equal to 1 as the cloud field. *)
Theorem crop_keeps_every_cloud_cell (s : CAclouds3D) (b : box) :
  wf s ->
  bounding_box (argwhere (width s) (depth s) (height s) (cld s)) = Some b ->
  count_set (crop b (cld s)) = count_set (cld s).
Proof.
  intros Hwf E.
  assert (Hc : shaped (Z.to_nat (width s)) (Z.to_nat (depth s))
                      (Z.to_nat (height s)) (cld s))
    by (destruct Hwf; assumption).
  destruct (box_inside s b E) as (Hx & Hx' & Hy & Hy' & Hz & Hz').
  destruct (bounding_box_spec _ b E) as (Hall & _).
  assert (Hs : shaped (Z.to_nat (x_max b + 1 - x_min b))
                      (Z.to_nat (y_max b + 1 - y_min b))
                      (Z.to_nat (z_max b + 1 - z_min b)) (crop b (cld s)))
    by (apply (shaped_crop _ _ _ _ b Hc); lia).
  unfold count_set.
  rewrite (flatten_cells _ _ _ _ Hs), (flatten_cells _ _ _ _ Hc).
  rewrite !filter_map_swap, !length_map.
  set (L1 := filter _ (indices (x_max b + 1 - x_min b) _ _)).
  set (L2 := filter _ (indices (width s) _ _)).
  set (f := fun p : Z * Z * Z =>
              (x_min b + fst (fst p), y_min b + snd (fst p),
               z_min b + snd p)).
  assert (N1 : NoDup (map f L1)).
  { apply NoDup_map_NoDup_ForallPairs.
    - intros [[u v] w] [[u' v'] w'] _ _ Ef. unfold f in Ef. simpl in Ef.
      injection Ef as E1 E2 E3. repeat f_equal; lia.
    - apply NoDup_filter, NoDup_indices. }
  assert (N2 : NoDup L2) by (apply NoDup_filter, NoDup_indices).
  assert (I12 : incl (map f L1) L2).
  { intros q Hq. apply in_map_iff in Hq.
    destruct Hq as ([[u v] w] & <- & Hp).
    apply filter_In in Hp. destruct Hp as (Hin & Hb).
    apply indices_In in Hin. simpl in Hb.
    rewrite (crop_cell _ _ _ _ b u v w Hc) in Hb by lia.
    apply filter_In. split; [apply indices_In; simpl; lia | exact Hb]. }
  assert (I21 : incl L2 (map f L1)).
  { intros [[u v] w] Hq. apply filter_In in Hq.
    destruct Hq as (Hin & Hb). apply indices_In in Hin. simpl in Hb.
    assert (Hbox : x_min b <= u <= x_max b /\ y_min b <= v <= y_max b /\
                   z_min b <= w <= z_max b).
    { apply Hall. apply argwhere_In. split; [exact Hin |].
      now apply bit_not_zero. }
    apply in_map_iff.
    exists (u - x_min b, v - y_min b, w - z_min b). split.
    - unfold f. simpl. repeat f_equal; lia.
    - apply filter_In. split; [apply indices_In; lia |]. simpl.
      rewrite (crop_cell _ _ _ _ b _ _ _ Hc) by lia.
      replace (x_min b + (u - x_min b)) with u by lia.
      replace (y_min b + (v - y_min b)) with v by lia.
      replace (z_min b + (w - z_min b)) with w by lia.
      exact Hb. }
  pose proof (NoDup_incl_length N1 I12) as Le1.
  pose proof (NoDup_incl_length N2 I21) as Le2.
  rewrite length_map in Le1, Le2. lia.
Qed.

Lemma crop_is_shifted_cloud_witness :
  wf (cloud_growth seeded) /\
  bounding_box (argwhere 4 3 5 (cld (cloud_growth seeded)))
  = Some (mkBox 1 1 1 1 1 1) /\
  cell (crop (mkBox 1 1 1 1 1 1) (cld (cloud_growth seeded))) 0 0 0
  = cell (cld (cloud_growth seeded)) 1 1 1.
Proof.
  split; [exact wf_grown_seed |]. split; [reflexivity |].
  apply (crop_is_shifted_cloud (cloud_growth seeded) (mkBox 1 1 1 1 1 1)
           0 0 0 wf_grown_seed eq_refl); simpl; lia.
Defined.

Lemma crop_keeps_every_cloud_cell_witness :
  wf (cloud_growth seeded) /\
  count_set (cld (cloud_growth seeded)) = 1%nat /\
  count_set (crop (mkBox 1 1 1 1 1 1) (cld (cloud_growth seeded))) = 1%nat.
Proof.
  split; [exact wf_grown_seed |]. split; [reflexivity |].
  rewrite (crop_keeps_every_cloud_cell (cloud_growth seeded)
             (mkBox 1 1 1 1 1 1) wf_grown_seed eq_refl).
  reflexivity.
Defined.
